(** * Keyword-based document comparison: the change-detection engine

    A shallow embedding of [Magic.py] ([search_for_words] and [compare] are
    the same text in [Magic_Special.py]): the keyword matcher
    ([search_for_words]), the set comparator ([compare]), the comparison and
    feature-mapping pass ([compare_and_mapping]), the pair evaluator
    ([magic_main]) and the batch loop of the main program, followed by the
    properties the specification states about them.

    Conventions of the embedding.
    - A Python [str] is a [string]; its characters are the code points
      below 256, so that [str.lower], [str.strip] and the ordering of
      strings are the ones Python has on that range.
    - A Python list is a [list]; a [dict] with string keys is a
      [gmap string _].
    - A call that may raise returns a [result]; the document reader
      ([fitz]) is a pair of oracles and every call to it is logged. *)

From Stdlib Require Import ZArith Ascii String.
From stdpp Require Import base option list sorting strings gmap pretty.

Local Open Scope Z_scope.

(** ** Exceptions and fallible computations *)

Inductive exn : Type :=
  | IndexError
  | ValueError
  | KeyError
  | TypeError
  | ReaderError.

Inductive result (A : Type) : Type :=
  | Ok (a : A)
  | Raise (e : exn).
Arguments Ok {A} a.
Arguments Raise {A} e.

#[global] Instance result_ret : MRet result := fun _ a => Ok a.
#[global] Instance result_bind : MBind result := fun _ _ f m =>
  match m with
  | Ok a => f a
  | Raise e => Raise e
  end.

Definition is_ok {A} (r : result A) : Prop :=
  match r with Ok _ => True | Raise _ => False end.

(** ** Characters *)

Definition code (c : ascii) : Z := Z.of_N (N_of_ascii c).

(** [str.isspace] on one character: TAB, LF, VT, FF, CR, FS, GS, RS, US,
    space, NEL and the no-break space. *)
Definition isspace (c : ascii) : bool :=
  let n := code c in
  ((9 <=? n) && (n <=? 13)) || ((28 <=? n) && (n <=? 32))
  || (n =? 133) || (n =? 160).

(** [str.lower] on one character: A-Z and the capital letters of Latin-1
    (all of 192..222 but the multiplication sign 215) move up by 32. *)
Definition lower_char (c : ascii) : ascii :=
  let n := code c in
  if ((65 <=? n) && (n <=? 90))
     || ((192 <=? n) && (n <=? 222) && negb (n =? 215))
  then ascii_of_N (Z.to_N (n + 32))
  else c.

Definition newline : ascii := "010"%char.
Definition space : ascii := " "%char.
Definition underscore : ascii := "_"%char.

(** ** Strings *)

Fixpoint lower (s : string) : string :=
  match s with
  | EmptyString => EmptyString
  | String c s' => String (lower_char c) (lower s')
  end.

Fixpoint lstrip (s : string) : string :=
  match s with
  | EmptyString => EmptyString
  | String c s' => if isspace c then lstrip s' else s
  end.

Fixpoint rstrip (s : string) : string :=
  match s with
  | EmptyString => EmptyString
  | String c s' =>
      match rstrip s' with
      | EmptyString => if isspace c then EmptyString else String c EmptyString
      | r => String c r
      end
  end.

(** [s.strip()] *)
Definition strip (s : string) : string := rstrip (lstrip s).

(** [s.startswith(p)] *)
Definition startswith (p s : string) : bool := String.prefix p s.

Fixpoint drop_chars (n : nat) (s : string) : string :=
  match n, s with
  | S k, String _ s' => drop_chars k s'
  | _, _ => s
  end.

(** [s.removeprefix(p)] *)
Definition removeprefix (p s : string) : string :=
  if startswith p s then drop_chars (String.length p) s else s.

(** [needle in hay] *)
Fixpoint contains (needle hay : string) : bool :=
  String.prefix needle hay ||
  match hay with
  | EmptyString => false
  | String _ hay' => contains needle hay'
  end.

(** [s.split(sep)] for a one-character separator: never an empty list. *)
Fixpoint split (sep : ascii) (s : string) : list string :=
  match s with
  | EmptyString => [EmptyString]
  | String c s' =>
      if Ascii.eqb c sep then EmptyString :: split sep s'
      else match split sep s' with
           | [] => [String c EmptyString]
           | piece :: pieces => String c piece :: pieces
           end
  end.

(** [sep.join(l)] *)
Definition join (sep : string) (l : list string) : string := String.concat sep l.

(** [s.replace(old, new)]: the occurrences of [old] are taken from the left
    and do not overlap; [skip] counts the characters of an occurrence that
    are still to be passed over. An empty [old] matches before every
    character and at the end. *)
Fixpoint replace_from (old new : string) (skip : nat) (s : string) : string :=
  match s with
  | EmptyString => EmptyString
  | String c s' =>
      match skip with
      | S k => replace_from old new k s'
      | O =>
          if String.prefix old s
          then new +:+ replace_from old new (Nat.pred (String.length old)) s'
          else String c (replace_from old new O s')
      end
  end.

Fixpoint intersperse_new (new s : string) : string :=
  match s with
  | EmptyString => new
  | String c s' => new +:+ String c (intersperse_new new s')
  end.

Definition replace (old new s : string) : string :=
  match old with
  | EmptyString => intersperse_new new s
  | _ => replace_from old new O s
  end.

(** [str(n)] for a length. *)
Definition str_of_nat (n : nat) : string := pretty n.

(** ** [int(s)] in base ten *)

(** The characters [int] skips around a number: the ASCII ones of C's
    [isspace], NEL and the no-break space. *)
Definition int_space (c : ascii) : bool :=
  let n := code c in
  ((9 <=? n) && (n <=? 13)) || (n =? 32) || (n =? 133) || (n =? 160).

Fixpoint int_lstrip (s : string) : string :=
  match s with
  | EmptyString => EmptyString
  | String c s' => if int_space c then int_lstrip s' else s
  end.

Fixpoint int_rstrip (s : string) : string :=
  match s with
  | EmptyString => EmptyString
  | String c s' =>
      match int_rstrip s' with
      | EmptyString => if int_space c then EmptyString else String c EmptyString
      | r => String c r
      end
  end.

Definition digit_val (c : ascii) : option Z :=
  let n := code c in
  if (48 <=? n) && (n <=? 57) then Some (n - 48) else None.

(** Digits, with single underscores allowed between two digits; returns the
    value and the number of digits read. *)
Fixpoint parse_digits (acc : Z) (ndigits : nat) (after_digit : bool)
    (s : string) : option (Z * nat) :=
  match s with
  | EmptyString => if after_digit then Some (acc, ndigits) else None
  | String c s' =>
      match digit_val c with
      | Some d => parse_digits (10 * acc + d) (S ndigits) true s'
      | None =>
          if Ascii.eqb c underscore && after_digit
          then parse_digits acc ndigits false s'
          else None
      end
  end.

(** The interpreter's limit on the digits of a decimal literal. *)
Definition int_max_str_digits : nat := 4300.

Definition int (s : string) : result Z :=
  let body := int_rstrip (int_lstrip s) in
  let '(sign, digits) :=
    match body with
    | String "+" d => (1, d)
    | String "-" d => (-1, d)
    | _ => (1, body)
    end in
  match parse_digits 0 0 false digits with
  | Some (v, n) =>
      if (n <=? int_max_str_digits)%nat then Ok (sign * v) else Raise ValueError
  | None => Raise ValueError
  end.

(** ** Lists and dictionaries *)

(** [l[i]]: a negative index counts from the end. *)
Definition py_index {A} (l : list A) (i : Z) : result A :=
  let n := Z.of_nat (length l) in
  let j := if i <? 0 then n + i else i in
  if (0 <=? j) && (j <? n) then
    match l !! Z.to_nat j with
    | Some x => Ok x
    | None => Raise IndexError
    end
  else Raise IndexError.

(** [l[i:j]] for non-negative bounds. *)
Definition slice {A} (l : list A) (i j : nat) : list A :=
  take (j - i)%nat (drop i l).

(** [d[k]] *)
Definition dict_get {V} (d : gmap string V) (k : string) : result V :=
  match d !! k with
  | Some v => Ok v
  | None => Raise KeyError
  end.

(** ** The keyword matcher: [search_for_words] *)

(** The lines of [lines] that contain the keyword, both taken stripped and
    lowercased for the test; the stripped line is what is kept. *)
Fixpoint matching_lines (keyword : string) (lines : list string) : list string :=
  match lines with
  | [] => []
  | line :: rest =>
      if contains (lower (strip keyword)) (lower (strip line))
      then strip line :: matching_lines keyword rest
      else matching_lines keyword rest
  end.

(** One turn of the loop over the keywords, up to the placeholder for an
    empty result: a keyword that starts with an underscore selects a line by
    its number, any other keyword selects lines by containment. *)
Definition keyword_matches (keyword text : string) : result (list string) :=
  matches ← (if startswith "_" keyword then
               let lines := split newline text in
               n ← int (removeprefix "_" keyword);
               line ← py_index lines (n - 1);
               mret [line]
             else mret (matching_lines keyword (split newline text)));
  mret (if decide (matches = []) then [""] else matches).

(** [{keyword.strip(): [] for keyword in keywords}] *)
Definition empty_matches (keywords : list string) : gmap string (list string) :=
  foldl (fun d keyword => <[strip keyword := []]> d) ∅ keywords.

Fixpoint search_loop (keywords : list string) (text : string)
    (matches_by_word : gmap string (list string))
    : result (gmap string (list string)) :=
  match keywords with
  | [] => Ok matches_by_word
  | keyword :: rest =>
      matches ← keyword_matches keyword text;
      entry ← dict_get matches_by_word (strip keyword);
      search_loop rest text (<[strip keyword := entry ++ matches]> matches_by_word)
  end.

Definition search_for_words (keywords : list string) (text : string)
    : result (gmap string (list string)) :=
  search_loop keywords text (empty_matches keywords).

(** ** The set comparator: [compare] *)

(** [list.sort()] on strings: the order is the lexicographic order of the
    code points, which is total, so the sorted list does not depend on the
    sorting algorithm. *)
Definition sort (l : list string) : list string := merge_sort String.le l.

Definition compare (temp_list_1 temp_list_2 : list string) : bool :=
  let match_list_1 := sort (map (replace " " "") temp_list_1) in
  let match_list_2 := sort (map (replace " " "") temp_list_2) in
  bool_decide (match_list_1 = match_list_2).

(** ** Comparison and feature mapping: [compare_and_mapping] *)

(** A cell of a result row: a string, the truth value of a comparison, or
    the float NaN that [pandas] gives for an empty cell of the input sheet,
    which only a link can be. *)
Inductive cell : Type :=
  | CStr (s : string)
  | CBool (b : bool)
  | CNan.

#[global] Instance cell_eq_dec : EqDecision cell.
Proof. solve_decision. Defined.

(** The inner [for ... else] over the mapping table: the first row whose
    keyword equals the changed feature gives the feature name, and the
    changed feature itself is used when no row does. *)
Fixpoint lookup_mapping (changed_feature : string)
    (keyword_mapping : list (list string)) : result string :=
  match keyword_mapping with
  | [] => Ok (strip (lower changed_feature))
  | keyword_mapping_feature :: rest =>
      key ← py_index keyword_mapping_feature 0;
      if decide (strip (lower changed_feature) = strip (lower key)) then
        feature ← py_index keyword_mapping_feature (-1);
        mret (strip (lower feature))
      else lookup_mapping changed_feature rest
  end.

(** [for changed_feature in changed_features: ...] *)
Fixpoint map_changed (changed_features : list string)
    (keyword_mapping : list (list string)) (mapped_features : list string)
    : result (list string) :=
  match changed_features with
  | [] => Ok mapped_features
  | changed_feature :: rest =>
      feature ← lookup_mapping changed_feature keyword_mapping;
      map_changed rest keyword_mapping (mapped_features ++ [feature])
  end.

Record cm_state : Type := CmState {
  df_list : list cell;
  changed_features : list string;
  mapped_features : list string
}.

Definition cm_init : cm_state := CmState [] [] [].

(** The loop over the keywords; the mapping pass is nested in it and runs
    over all the changed features found so far. *)
Fixpoint cm_loop (matches_by_word1 matches_by_word2 : gmap string (list string))
    (keywords : list string) (keyword_mapping : list (list string))
    (st : cm_state) : result cm_state :=
  match keywords with
  | [] => Ok st
  | keyword :: rest =>
      matches_list_1 ← dict_get matches_by_word1 (strip keyword);
      matches_list_2 ← dict_get matches_by_word2 (strip keyword);
      let changed :=
        if compare matches_list_1 matches_list_2 then changed_features st
        else changed_features st ++ [strip keyword] in
      let df := df_list st ++ [CStr (join "|" matches_list_1);
                               CStr (join "|" matches_list_2);
                               CBool (compare matches_list_1 matches_list_2)] in
      mapped ← map_changed changed keyword_mapping (mapped_features st);
      cm_loop matches_by_word1 matches_by_word2 rest keyword_mapping
        (CmState df changed mapped)
  end.

(** [mapped_features = list(set(mapped_features)); mapped_features.sort()]:
    the set drops the repetitions, and sorting makes the result independent
    of the order in which the set is listed. *)
Definition dedup_sort (mapped : list string) : list string :=
  sort (remove_dups mapped).

Definition change_flag (changed : list string) : string :=
  if decide (changed = []) then "No" else "Yes".

Definition compare_and_mapping
    (matches_by_word1 matches_by_word2 : gmap string (list string))
    (keywords : list string) (keyword_mapping : list (list string))
    : result (list cell) :=
  st ← cm_loop matches_by_word1 matches_by_word2 keywords keyword_mapping cm_init;
  let mapped := dedup_sort (mapped_features st) in
  mret (CStr (change_flag (changed_features st))
        :: CStr (join ", " (changed_features st))
        :: CStr (join ", " mapped)
        :: df_list st).

(** ** The document reader *)

(** The two calls into the PDF library, as oracles: the page count of a
    document and its text blocks, one normalised line per block. *)
Record reader : Type := Reader {
  count_of_pages : string → result Z;
  fitz_extract_all_words : string → result (list string)
}.

Inductive event : Type :=
  | PageCount (link : string)
  | TextExtraction (link : string).

(** A computation that calls the reader: it extends the log of the calls
    made so far, and returns or raises. *)
Definition io (A : Type) : Type := list event → list event * result A.

#[global] Instance io_ret : MRet io := fun _ a log => (log, Ok a).
#[global] Instance io_bind : MBind io := fun _ _ f m log =>
  match m log with
  | (log', Ok a) => f a log'
  | (log', Raise e) => (log', Raise e)
  end.

Definition lift {A} (r : result A) : io A := fun log => (log, r).

Definition call_count_of_pages (rd : reader) (link : string) : io Z :=
  fun log => (log ++ [PageCount link], count_of_pages rd link).

Definition call_fitz_extract_all_words (rd : reader) (link : string)
    : io (list string) :=
  fun log => (log ++ [TextExtraction link], fitz_extract_all_words rd link).

(** [try: body except Exception: handler] *)
Definition try_except {A} (body : io A) (handler : exn → io A) : io A :=
  fun log =>
    match body log with
    | (log', Ok a) => (log', Ok a)
    | (log', Raise e) => handler e log'
    end.

(** ** The pair evaluator: [magic_main] *)

Definition pdf_server : string := "\\10.199.104.50\pdfs".
Definition page_limit : Z := 200.

(** [[links[0], links[-1], "".join(links).replace(server, ""), status]] *)
Definition status_row (links : list string) (status : string) : result (list cell) :=
  old ← py_index links 0;
  latest ← py_index links (-1);
  mret [CStr old; CStr latest; CStr (replace pdf_server "" (join "" links));
        CStr status].

(** ["\n".join([line.lower() for line in lines])] *)
Definition text_of (lines : list string) : string :=
  join (String newline "") (lower <$> lines).

Definition document_text (rd : reader) (link : string) : io string :=
  lines ← call_fitz_extract_all_words rd link;
  mret (text_of lines).

Definition magic_body (rd : reader) (links keywords : list string)
    (vendor_code : string) (keyword_mapping : list (list string))
    : io (list cell) :=
  link_1 ← lift (py_index links 0);
  num_pages_1 ← call_count_of_pages rd link_1;
  link_2 ← lift (py_index links (-1));
  num_pages_2 ← call_count_of_pages rd link_2;
  if (page_limit <? num_pages_2) || (page_limit <? num_pages_1) then
    lift (status_row links "Page limit exceeded")
  else
    link_1 ← lift (py_index links 0);
    text1 ← document_text rd link_1;
    link_2 ← lift (py_index links (-1));
    text2 ← document_text rd link_2;
    matches_by_word1 ← lift (search_for_words keywords text1);
    matches_by_word2 ← lift (search_for_words keywords text2);
    final_row ← lift (compare_and_mapping matches_by_word1 matches_by_word2
                        keywords keyword_mapping);
    let final_row := CStr (str_of_nat (String.length text2)) :: final_row in
    let final_row := CStr (str_of_nat (String.length text1)) :: final_row in
    let final_row := CStr vendor_code :: final_row in
    let final_row := CStr (replace pdf_server "" (join "" links)) :: final_row in
    latest ← lift (py_index links (-1));
    let final_row := CStr latest :: final_row in
    old ← lift (py_index links 0);
    let final_row := CStr old :: final_row in
    mret final_row.

Definition magic_main (rd : reader) (links keywords : list string)
    (vendor_code : string) (keyword_mapping : list (list string))
    : io (list cell) :=
  try_except (magic_body rd links keywords vendor_code keyword_mapping)
    (fun _ => lift (status_row links "Error in reading")).

(** ** The batch loop of the main program *)

Definition one_time_count : nat := 250.

(** [range(start, stop, step)] for a positive step. *)
Fixpoint range_from (fuel start stop step : nat) : list nat :=
  match fuel with
  | O => []
  | S fuel' =>
      if (start <? stop)%nat
      then start :: range_from fuel' (start + step)%nat stop step
      else []
  end.

Definition py_range (start stop step : nat) : list nat :=
  range_from stop start stop step.

(** One call of [magic_main] in a worker process: the row it returns, or the
    exception it lets out. *)
Definition worker (rd : reader) (keywords : list string) (vendor_code : string)
    (keyword_mapping : list (list string)) (links : list string)
    : result (list cell) :=
  (magic_main rd links keywords vendor_code keyword_mapping []).2.

(** [executor.map(f, batch)]: the results come in the order of [batch]. *)
Definition executor_map {A B} (f : A → result B) (batch : list A)
    : list (result B) := map f batch.

(** [for result in results: results_list.append(result)]; taking a result
    whose call raised raises in turn. *)
Fixpoint drain {B} (results : list (result B)) (results_list : list B)
    : result (list B) :=
  match results with
  | [] => Ok results_list
  | r :: rest => row ← r; drain rest (results_list ++ [row])
  end.

Fixpoint batch_loop {A B} (f : A → result B) (count : nat) (starts : list nat)
    (links_list : list A) (results_list : list B) : result (list B) :=
  match starts with
  | [] => Ok results_list
  | i :: rest =>
      let batch_links := slice links_list i (i + count) in
      let results := executor_map f batch_links in
      results_list ← drain results results_list;
      batch_loop f count rest links_list results_list
  end.

Definition run_batches (rd : reader) (keywords : list string)
    (vendor_code : string) (keyword_mapping : list (list string))
    (links_list : list (list string)) : result (list (list cell)) :=
  batch_loop (worker rd keywords vendor_code keyword_mapping) one_time_count
    (py_range 0 (length links_list) one_time_count) links_list [].


(** ** Notions used by the statements *)

(** The string with every space character (U+0020) taken out. *)
Fixpoint without_spaces (s : string) : string :=
  match s with
  | EmptyString => EmptyString
  | String c s' =>
      if Ascii.eqb c space then without_spaces s'
      else String c (without_spaces s')
  end.

(** The string with every whitespace character taken out. *)
Fixpoint without_whitespace (s : string) : string :=
  match s with
  | EmptyString => EmptyString
  | String c s' =>
      if isspace c then without_whitespace s'
      else String c (without_whitespace s')
  end.

(** A keyword is positional when it starts with an underscore, and a
    substring keyword otherwise. *)
Definition positional (keyword : string) : Prop := startswith "_" keyword = true.
Definition substring_keyword (keyword : string) : Prop :=
  startswith "_" keyword = false.

(** The lines that contain a substring keyword, as a filter. *)
Definition line_matches (keyword line : string) : Prop :=
  contains (lower (strip keyword)) (lower (strip line)) = true.

(** What the loop of [search_for_words] appends to the entry [key]: the
    matches of the keywords whose stripped form is [key], in the order of
    the list. *)
Fixpoint appended (key text : string) (keywords : list string) : list string :=
  match keywords with
  | [] => []
  | keyword :: rest =>
      (if decide (strip keyword = key) then
         match keyword_matches keyword text with
         | Ok matches => matches
         | Raise _ => []
         end
       else []) ++ appended key text rest
  end.

(** The entry of a keyword in a match set. *)
Definition entry_of (m : gmap string (list string)) (keyword : string)
    : list string := default [] (m !! strip keyword).

Definition has_entries (m : gmap string (list string)) (keywords : list string)
    : Prop := ∀ keyword, keyword ∈ keywords → is_Some (m !! strip keyword).

(** A keyword is changed when its two match collections compare unequal. *)
Definition changed (m1 m2 : gmap string (list string)) (keyword : string)
    : Prop := compare (entry_of m1 keyword) (entry_of m2 keyword) = false.

#[global] Instance changed_dec m1 m2 keyword : Decision (changed m1 m2 keyword).
Proof. unfold changed. apply _. Defined.

#[global] Instance line_matches_dec keyword line : Decision (line_matches keyword line).
Proof. unfold line_matches. apply _. Defined.

Definition changed_of (m1 m2 : gmap string (list string))
    (keywords : list string) : list string :=
  strip <$> filter (changed m1 m2) keywords.

Definition triple_of (m1 m2 : gmap string (list string)) (keyword : string)
    : list cell :=
  [CStr (join "|" (entry_of m1 keyword)); CStr (join "|" (entry_of m2 keyword));
   CBool (compare (entry_of m1 keyword) (entry_of m2 keyword))].

(** The feature name of a changed keyword under a mapping table whose rows
    are (keyword, feature) records. *)
Definition row_key (row : list string) : string := default "" (head row).
Definition row_feature (row : list string) : string := default "" (last row).

Definition feature_of (keyword_mapping : list (list string)) (keyword : string)
    : string :=
  match list_find (fun row => strip (lower keyword) = strip (lower (row_key row)))
          keyword_mapping with
  | Some (_, row) => strip (lower (row_feature row))
  | None => strip (lower keyword)
  end.

(** The invariant of the loop of [compare_and_mapping]: the mapped features
    are the features of the changed keywords. *)
Definition mapped_inv (keyword_mapping : list (list string)) (st : cm_state)
    : Prop :=
  ∀ f, f ∈ mapped_features st ↔
       ∃ cf, cf ∈ changed_features st ∧ f = feature_of keyword_mapping cf.

Definition well_formed_table (keyword_mapping : list (list string)) : Prop :=
  Forall (fun row => row ≠ []) keyword_mapping.

(** The two short rows of the pair evaluator. *)
Definition short_row (old latest status : string) : list cell :=
  [CStr old; CStr latest; CStr (replace pdf_server "" (old +:+ latest));
   CStr status].

(** The outcome of the body of [magic_main] on a pair, the log left out. *)
Definition evaluation (rd : reader) (old latest : string) (keywords : list string)
    (vendor_code : string) (keyword_mapping : list (list string))
    : result (list cell) :=
  num_pages_1 ← count_of_pages rd old;
  num_pages_2 ← count_of_pages rd latest;
  if (page_limit <? num_pages_2) || (page_limit <? num_pages_1) then
    Ok (short_row old latest "Page limit exceeded")
  else
    lines1 ← fitz_extract_all_words rd old;
    lines2 ← fitz_extract_all_words rd latest;
    matches_by_word1 ← search_for_words keywords (text_of lines1);
    matches_by_word2 ← search_for_words keywords (text_of lines2);
    row ← compare_and_mapping matches_by_word1 matches_by_word2 keywords
             keyword_mapping;
    Ok (CStr old :: CStr latest :: CStr (replace pdf_server "" (old +:+ latest))
        :: CStr vendor_code
        :: CStr (str_of_nat (String.length (text_of lines1)))
        :: CStr (str_of_nat (String.length (text_of lines2)))
        :: row).

(** A positional keyword that cannot be used on a text: its number does not
    parse, or it is larger than the number of lines. *)
Definition bad_positional (keyword text : string) : Prop :=
  positional keyword ∧
  match int (removeprefix "_" keyword) with
  | Raise _ => True
  | Ok n => Z.of_nat (length (split newline text)) < n
  end.

(** A document pair as the batch loop passes it, and the row the pair
    evaluator returns for it. *)
Definition pair_links (pair : string * string) : list string :=
  [pair.1; pair.2].

Definition row_of (rd : reader) (keywords : list string) (vendor_code : string)
    (keyword_mapping : list (list string)) (pair : string * string)
    : list cell :=
  match evaluation rd pair.1 pair.2 keywords vendor_code keyword_mapping with
  | Ok row => row
  | Raise _ => short_row pair.1 pair.2 "Error in reading"
  end.

(** A row of the mapping table that does not carry the keyword. *)
Definition other_key (keyword : string) (row : list string) : Prop :=
  strip (lower keyword) ≠ strip (lower (row_key row)).

Definition tab : ascii := "009"%char.

(** Readers and match sets for the examples. *)
Definition demo_reader : reader :=
  Reader (fun link => if decide (link = "big.pdf") then Ok 250
                      else if decide (link = "gone.pdf") then Raise ReaderError
                      else Ok 2)
         (fun link => if decide (link = "a.pdf") then Ok ["Voltage: 5V"; "Current 1A"]
                      else if decide (link = "b.pdf") then Ok ["Voltage: 3V"; "Current  1A"]
                      else Raise ReaderError).

Definition swap_reader : reader :=
  Reader (fun _ => Ok 1)
         (fun link => if decide (link = "old.pdf") then Ok ["b 1"; "a 1"]
                      else Ok ["b 2"; "a 2"]).

Definition demo_matches_1 : gmap string (list string) :=
  <["Voltage" := ["voltage: 5v"]]> (<["current" := ["current 1a"]]> ∅).
Definition demo_matches_2 : gmap string (list string) :=
  <["Voltage" := ["voltage: 3v"]]> (<["current" := ["current  1a"]]> ∅).

(** ** Text extraction: the bodies of [fitz_extract_all_words] and
    [extract_all_text] *)

(** [re.sub(r'\s+', ' ', s)]: every maximal run of whitespace becomes one
    space; [in_run] tells that the character before was whitespace. *)
Fixpoint sub_whitespace (in_run : bool) (s : string) : string :=
  match s with
  | EmptyString => EmptyString
  | String c s' =>
      if isspace c then
        if in_run then sub_whitespace true s'
        else String space (sub_whitespace true s')
      else String c (sub_whitespace false s')
  end.

(** [re.sub(r'\s+', ' ', line.replace('\n', ' ')).strip()] *)
Definition block_line (line : string) : string :=
  strip (sub_whitespace false (replace (String newline "") " " line)).

(** The loop over the blocks of a page; [line] is the text of the block,
    [block[4]]. *)
Fixpoint page_lines (blocks : list string) (all_text : list string)
    : list string :=
  match blocks with
  | [] => all_text
  | line :: rest =>
      let new_line := block_line line in
      if contains "<image:" new_line || bool_decide (new_line = "")
      then page_lines rest all_text
      else page_lines rest (all_text ++ [new_line])
  end.

(** The loop over the pages of an opened document, each page given by the
    texts of its blocks. *)
Fixpoint doc_lines (doc : list (list string)) (all_text : list string)
    : list string :=
  match doc with
  | [] => all_text
  | page :: rest => doc_lines rest (page_lines page all_text)
  end.

(** [fitz_extract_all_words] on an opened document. *)
Definition fitz_extract_all_words_on (doc : list (list string)) : list string :=
  doc_lines doc [].

(** [extract_all_text] on an opened document, given the text of each page:
    ["\n".join(pages).lower().strip()]. *)
Definition extract_all_text_on (pages : list string) : string :=
  strip (lower (join (String newline "") pages)).

(** ** The header of the report *)

Definition header (keywords : list string) : list string :=
  ["OLD"; "LATEST"; "OLD_LATEST"; "VENDOR_CODE"; "CHAR_LEN1"; "CHAR_LEN2";
   "DATA_CHANGED"; "CHANGED_FEATURES"; "MAPPED_FEATURES"]
  ++ (keywords ≫= fun word => ["1"; "2"; strip word]).

(** ** [Magic_Special.py] *)

Module Special.

(** The exceptions of this program: the ones above, and three more. *)
Inductive error : Type :=
  | Builtin (e : exn)
  | UnboundLocalError
  | TypeError
  | ReError.

Inductive outcome (A : Type) : Type :=
  | Return (a : A)
  | Throw (e : error).
Arguments Return {A} a.
Arguments Throw {A} e.

#[global] Instance outcome_ret : MRet outcome := fun _ a => Return a.
#[global] Instance outcome_bind : MBind outcome := fun _ _ f m =>
  match m with
  | Return a => f a
  | Throw e => Throw e
  end.

Definition of_result {A} (r : result A) : outcome A :=
  match r with
  | Ok a => Return a
  | Raise e => Throw (Builtin e)
  end.

(** A local variable of [compare_parts]: not assigned, [None], or a string. *)
Inductive value : Type :=
  | Unbound
  | PyNone
  | PyStr (s : string).

(** What the program reads from outside: the page count ([fitz]), the text
    of each page ([pdfplumber]), the part number that [sce_part_number]
    finds on the first page ([None] when its loop ends without a return),
    and [re.sub]. *)
Record reader : Type := Reader {
  count_of_pages : string → outcome Z;
  page_texts : string → outcome (list string);
  sce_part_number : string → value;
  re_sub : string → string → string → outcome string
}.

Definition pdf_server : string := "\\10.199.104.160\pdfs".
Definition page_limit : Z := 50.

(** [extract_all_text(link)] *)
Definition extract_all_text (rd : reader) (link : string) : outcome string :=
  pages ← page_texts rd link;
  mret (extract_all_text_on pages).

(** The loop of [compare_and_mapping]: the changed features and the mapped
    features. *)
Fixpoint cm_loop (matches_by_word1 matches_by_word2 : gmap string (list string))
    (keywords : list string) (keyword_mapping : list (list string))
    (changed_features mapped_features : list string)
    : result (list string * list string) :=
  match keywords with
  | [] => Ok (changed_features, mapped_features)
  | keyword :: rest =>
      matches_list_1 ← dict_get matches_by_word1 (strip keyword);
      matches_list_2 ← dict_get matches_by_word2 (strip keyword);
      let changed :=
        if compare matches_list_1 matches_list_2 then changed_features
        else changed_features ++ [strip keyword] in
      mapped ← map_changed changed keyword_mapping mapped_features;
      cm_loop matches_by_word1 matches_by_word2 rest keyword_mapping
        changed mapped
  end.

Definition compare_and_mapping
    (matches_by_word1 matches_by_word2 : gmap string (list string))
    (part_1 part_2 part_status : string)
    (keywords : list string) (keyword_mapping : list (list string))
    : result (list string) :=
  '(changed_features, mapped_features) ←
    cm_loop matches_by_word1 matches_by_word2 keywords keyword_mapping [] [];
  let mapped_features := dedup_sort mapped_features in
  let df_list := [change_flag changed_features; join ", " mapped_features] in
  if decide (change_flag changed_features = "Yes" ∧ part_status = "Equal") then
    mret ("Done" :: part_1 :: part_2 :: "Done" :: "" :: "Equal Parts" :: df_list)
  else if decide (change_flag changed_features = "No" ∧ part_status = "Equal") then
    mret ("Done" :: part_1 :: part_2 :: "Done" :: "" :: "Equal Manual" :: df_list)
  else mret ["Reject"; "Not Compatible"].

(** [for line in text.split('\n'): if part_keyword in line: ... break] with
    its [else]. *)
Fixpoint first_line_with (part_keyword : string) (lines : list string) : string :=
  match lines with
  | [] => ""
  | line :: rest =>
      if contains part_keyword line then line
      else first_line_with part_keyword rest
  end.

Definition part_pattern (part_keyword : string) : string :=
  "(.*" +:+ lower part_keyword +:+ "|[0-9]+/[0-9]+/20[0-9]+|:|www.mill-max.com)".

(** [re.sub(pattern, "", part_line).removeprefix(".").replace("  ", " ")] *)
Definition clean_part (rd : reader) (part_keyword : string) (part_line : value)
    : outcome string :=
  match part_line with
  | Unbound => Throw UnboundLocalError
  | PyNone => Throw TypeError
  | PyStr line =>
      part ← re_sub rd (part_pattern part_keyword) "" line;
      mret (replace "  " " " (removeprefix "." part))
  end.

Definition compare_parts (rd : reader) (links : list string)
    (text1 text2 : string) (part_keyword : list string) (vendor_code : string)
    : outcome (string * string * string) :=
  first ← of_result (py_index part_keyword 0);
  let part_keyword := lower (strip first) in
  '(part_line_1, part_line_2) ←
    (if decide (part_keyword ≠ "xxx") then
       mret (PyStr (first_line_with part_keyword (split newline text1)),
             PyStr (first_line_with part_keyword (split newline text2)))
     else if decide (vendor_code = "SCE") then
       old ← of_result (py_index links 0);
       latest ← of_result (py_index links (-1));
       mret (sce_part_number rd old, sce_part_number rd latest)
     else mret (Unbound, Unbound));
  part_1 ← clean_part rd part_keyword part_line_1;
  part_2 ← clean_part rd part_keyword part_line_2;
  if decide (strip (replace " " "" part_1) = strip (replace " " "" part_2)
             ∧ strip part_1 ≠ "")
  then mret (strip part_1, strip part_2, "Equal")
  else mret ("_", "_", "Not Equal").

(** [l.insert(i, x)] for an index that is not negative. *)
Definition py_insert {A} (i : nat) (x : A) (l : list A) : list A :=
  take i l ++ x :: drop i l.

Definition leading_cells (links : list string) (vendor_code : string)
    : result (list string) :=
  old ← py_index links 0;
  latest ← py_index links (-1);
  mret [old; latest; replace pdf_server "" (join "" links); vendor_code].

Definition magic_body (rd : reader) (links keywords : list string)
    (vendor_code : string) (part_keyword : list string)
    (keyword_mapping : list (list string)) : outcome (list string) :=
  link_1 ← of_result (py_index links 0);
  num_pages_1 ← count_of_pages rd link_1;
  link_2 ← of_result (py_index links (-1));
  num_pages_2 ← count_of_pages rd link_2;
  if (page_limit <? num_pages_2) || (page_limit <? num_pages_1) then
    cells ← of_result (leading_cells links vendor_code);
    mret (cells ++ ["Reject"; "Page limit exceeded"])
  else
    link_1 ← of_result (py_index links 0);
    text1 ← extract_all_text rd link_1;
    link_2 ← of_result (py_index links (-1));
    text2 ← extract_all_text rd link_2;
    '(part_1, part_2, part_status) ←
      compare_parts rd links text1 text2 part_keyword vendor_code;
    if decide (part_status ≠ "Equal") then
      let final_row := ["Reject"; "Not Compatible"] in
      let final_row := vendor_code :: final_row in
      let final_row := replace pdf_server "" (join "" links) :: final_row in
      latest ← of_result (py_index links (-1));
      let final_row := latest :: final_row in
      old ← of_result (py_index links 0);
      mret (old :: final_row)
    else
      matches_by_word1 ← of_result (search_for_words keywords text1);
      matches_by_word2 ← of_result (search_for_words keywords text2);
      final_row ← of_result (compare_and_mapping matches_by_word1
                               matches_by_word2 part_1 part_2 part_status
                               keywords keyword_mapping);
      let final_row := py_insert 1 (str_of_nat (String.length text2)) final_row in
      let final_row := py_insert 1 (str_of_nat (String.length text1)) final_row in
      let final_row := vendor_code :: final_row in
      let final_row := replace pdf_server "" (join "" links) :: final_row in
      latest ← of_result (py_index links (-1));
      let final_row := latest :: final_row in
      old ← of_result (py_index links 0);
      mret (old :: final_row).

Definition magic_main (rd : reader) (links keywords : list string)
    (vendor_code : string) (part_keyword : list string)
    (keyword_mapping : list (list string)) : outcome (list string) :=
  match magic_body rd links keywords vendor_code part_keyword keyword_mapping with
  | Return final_row => Return final_row
  | Throw _ =>
      cells ← of_result (leading_cells links vendor_code);
      mret (cells ++ ["Error"])
  end.

(** The header of the report of this program. *)
Definition header : list string :=
  ["OLD"; "LATEST"; "OLD_LATEST"; "VENDOR_CODE"; "STATUS"; "CHAR_LEN_1";
   "CHAR_LEN_2"; "PART 1"; "PART 2"; "COMPARE_SATUS"; "COMMENT"; "PART STATUS";
   "DATA_CHANGED"; "CHANGED_FEATURES"].

End Special.

(** ** Notions used by the statements on the rest of the program *)

Fixpoint all_chars (P : ascii → bool) (s : string) : bool :=
  match s with
  | EmptyString => true
  | String c s' => P c && all_chars P s'
  end.

Definition starts_with_space (s : string) : bool :=
  match s with
  | EmptyString => false
  | String c _ => isspace c
  end.

(** The only whitespace of the string is single space characters: every
    whitespace character is U+0020 and the character after it is not
    whitespace. *)
Fixpoint single_spaced (s : string) : bool :=
  match s with
  | EmptyString => true
  | String c s' =>
      (if isspace c then Ascii.eqb c space && negb (starts_with_space s')
       else true) && single_spaced s'
  end.

(** Every whitespace character of the string is U+0020. *)
Definition plain (s : string) : bool :=
  all_chars (fun c => negb (isspace c) || Ascii.eqb c space) s.

Definition no_newline (s : string) : bool :=
  all_chars (fun c => negb (Ascii.eqb c newline)) s.

(** A line as [fitz_extract_all_words] keeps it. *)
Definition clean_line (line : string) : Prop :=
  line ≠ "" ∧ strip line = line ∧ single_spaced line = true
  ∧ contains "<image:" line = false.

(** The blocks that [fitz_extract_all_words] keeps. *)
Definition kept (new_line : string) : Prop :=
  contains "<image:" new_line = false ∧ new_line ≠ "".

#[global] Instance kept_dec new_line : Decision (kept new_line).
Proof. unfold kept. apply _. Defined.

(** The four leading cells of every row of [Magic_Special.py]. *)
Definition special_cells (old latest vendor_code : string) : list string :=
  [old; latest; replace Special.pdf_server "" (old +:+ latest); vendor_code].

(** The matches of a keyword, nothing when the keyword raises. *)
Definition matches_of (text keyword : string) : list string :=
  match keyword_matches keyword text with
  | Ok matches => matches
  | Raise _ => []
  end.

(** ** Links as the main program passes them *)

(** The main program passes [magic_main] the rows of the input sheet as
    [pandas] reads them: a cell is a string, or the float NaN when the cell
    of the sheet is empty. *)
Inductive sheet_cell : Type :=
  | Text (s : string)
  | Nan.

#[global] Instance sheet_cell_eq_dec : EqDecision sheet_cell.
Proof. solve_decision. Defined.

Definition cell_of (c : sheet_cell) : cell :=
  match c with
  | Text s => CStr s
  | Nan => CNan
  end.

(** The strings of a list of cells, as [str.join] reads them: the first item
    that is not a string raises [TypeError]. *)
Fixpoint texts_of (links : list sheet_cell) : result (list string) :=
  match links with
  | [] => Ok []
  | Text s :: rest => texts ← texts_of rest; mret (s :: texts)
  | Nan :: _ => Raise TypeError
  end.

(** [sep.join(links)] *)
Definition join_links (sep : string) (links : list sheet_cell) : result string :=
  texts ← texts_of links;
  mret (join sep texts).

(** The reader on the cells of the sheet: what the two calls into the PDF
    library do with a string, and with NaN. *)
Record cell_reader : Type := CellReader {
  count_of_pages_at : sheet_cell → result Z;
  fitz_extract_all_words_at : sheet_cell → result (list string)
}.

(** [[links[0], links[-1], "".join(links).replace(server, ""), status]] *)
Definition status_row_cells (links : list sheet_cell) (status : string)
    : result (list cell) :=
  old ← py_index links 0;
  latest ← py_index links (-1);
  joined ← join_links "" links;
  mret [cell_of old; cell_of latest; CStr (replace pdf_server "" joined);
        CStr status].

(** The body of [magic_main] on a row of the sheet. *)
Definition magic_body_cells (rd : cell_reader) (links : list sheet_cell)
    (keywords : list string) (vendor_code : string)
    (keyword_mapping : list (list string)) : result (list cell) :=
  link_1 ← py_index links 0;
  num_pages_1 ← count_of_pages_at rd link_1;
  link_2 ← py_index links (-1);
  num_pages_2 ← count_of_pages_at rd link_2;
  if (page_limit <? num_pages_2) || (page_limit <? num_pages_1) then
    status_row_cells links "Page limit exceeded"
  else
    link_1 ← py_index links 0;
    lines1 ← fitz_extract_all_words_at rd link_1;
    let text1 := text_of lines1 in
    link_2 ← py_index links (-1);
    lines2 ← fitz_extract_all_words_at rd link_2;
    let text2 := text_of lines2 in
    matches_by_word1 ← search_for_words keywords text1;
    matches_by_word2 ← search_for_words keywords text2;
    final_row ← compare_and_mapping matches_by_word1 matches_by_word2
                  keywords keyword_mapping;
    let final_row := CStr (str_of_nat (String.length text2)) :: final_row in
    let final_row := CStr (str_of_nat (String.length text1)) :: final_row in
    let final_row := CStr vendor_code :: final_row in
    joined ← join_links "" links;
    let final_row := CStr (replace pdf_server "" joined) :: final_row in
    latest ← py_index links (-1);
    let final_row := cell_of latest :: final_row in
    old ← py_index links 0;
    let final_row := cell_of old :: final_row in
    mret final_row.

(** [magic_main] on a row of the sheet: the handler builds its row from the
    links again. *)
Definition magic_main_cells (rd : cell_reader) (links : list sheet_cell)
    (keywords : list string) (vendor_code : string)
    (keyword_mapping : list (list string)) : result (list cell) :=
  match magic_body_cells rd links keywords vendor_code keyword_mapping with
  | Ok final_row => Ok final_row
  | Raise _ => status_row_cells links "Error in reading"
  end.

(** The batch loop on the rows of the sheet. *)
Definition run_batches_cells (rd : cell_reader) (keywords : list string)
    (vendor_code : string) (keyword_mapping : list (list string))
    (links_list : list (list sheet_cell)) : result (list (list cell)) :=
  batch_loop (fun links => magic_main_cells rd links keywords vendor_code
                             keyword_mapping)
    one_time_count (py_range 0 (length links_list) one_time_count) links_list [].

(** A reader on strings, extended by what the library does with NaN. *)
Definition on_cells (rd : reader) (nan_pages : result Z)
    (nan_lines : result (list string)) : cell_reader :=
  CellReader
    (fun c => match c with Text s => count_of_pages rd s | Nan => nan_pages end)
    (fun c => match c with
              | Text s => fitz_extract_all_words rd s
              | Nan => nan_lines
              end).

(** A pair of strings as a row of the sheet. *)
Definition text_links (pair : string * string) : list sheet_cell :=
  [Text pair.1; Text pair.2].

(** ** Running the program on small inputs *)

Example strip_ex : strip "  a b	 " = "a b". Proof. reflexivity. Qed.
Example lower_ex : lower "Vcc MAX" = "vcc max". Proof. reflexivity. Qed.
Example split_ex : split newline "" = [""]. Proof. reflexivity. Qed.
Example replace_ex : replace "aa" "b" "aaa" = "ba". Proof. reflexivity. Qed.
Example replace_empty_ex : replace "" "-" "a,b" = "-a-,-b-". Proof. reflexivity. Qed.
Example int_ex1 : int " 1_0 " = Ok 10. Proof. reflexivity. Qed.
Example int_ex2 : int "-5" = Ok (-5). Proof. reflexivity. Qed.
Example int_ex3 : int "1__0" = Raise ValueError. Proof. reflexivity. Qed.
Example int_ex4 : int "" = Raise ValueError. Proof. reflexivity. Qed.
Example index_ex1 : py_index ["a"; "b"; "c"] (-1) = Ok "c". Proof. reflexivity. Qed.
Example index_ex2 : py_index ["a"; "b"; "c"] 3 = Raise IndexError. Proof. reflexivity. Qed.
Example str_of_nat_ex : str_of_nat 120 = "120". Proof. reflexivity. Qed.
Example search_ex :
  search_for_words ["voltage"; "_2"; "power "] (String.concat (String newline "") ["voltage: 5v"; "current 1a"])
  = Ok (<["voltage" := ["voltage: 5v"]]> (<["_2" := ["current 1a"]]> (<["power" := [""]]> ∅))).
Proof. vm_compute. reflexivity. Qed.
Example magic_ex :
  (magic_main demo_reader ["a.pdf"; "b.pdf"] ["Voltage"; "current"] "V1" [["voltage"; " Supply Voltage "]] []).2
  = Ok [CStr "a.pdf"; CStr "b.pdf"; CStr "a.pdfb.pdf"; CStr "V1"; CStr "22"; CStr "23";
        CStr "Yes"; CStr "Voltage"; CStr "supply voltage";
        CStr "voltage: 5v"; CStr "voltage: 3v"; CBool false;
        CStr "current 1a"; CStr "current  1a"; CBool true].
Proof. vm_compute. reflexivity. Qed.

Example magic_positional_ex :
  (magic_main demo_reader ["a.pdf"; "b.pdf"] ["_3"] "V1" [] []).2
  = Ok [CStr "a.pdf"; CStr "b.pdf"; CStr "a.pdfb.pdf"; CStr "Error in reading"].
Proof. vm_compute. reflexivity. Qed.
Example magic_unchanged_ex :
  (magic_main demo_reader ["a.pdf"; "a.pdf"] ["voltage"] "V1" [] []).2
  = Ok [CStr "a.pdf"; CStr "a.pdf"; CStr "a.pdfa.pdf"; CStr "V1"; CStr "22";
        CStr "22"; CStr "No"; CStr ""; CStr "";
        CStr "voltage: 5v"; CStr "voltage: 5v"; CBool true].
Proof. vm_compute. reflexivity. Qed.
Example range_ex : py_range 0 5 2 = [0; 2; 4]%nat. Proof. reflexivity. Qed.
Example batch_ex :
  batch_loop (fun x : nat => Ok x) 2 (py_range 0 5 2) [1; 2; 3; 4; 5]%nat []
  = Ok [1; 2; 3; 4; 5]%nat.
Proof. reflexivity. Qed.
Example batch_raise_ex :
  batch_loop (fun x : nat => if decide (x = 4%nat) then Raise ReaderError else Ok x)
    2 (py_range 0 5 2) [1; 2; 3; 4; 5]%nat []
  = Raise ReaderError.
Proof. reflexivity. Qed.
Example compare_ex : compare ["a b"; "c"] ["c"; "ab"] = true.
Proof. reflexivity. Qed.

(** * Properties *)

(** ** Strings and indexing *)

Lemma append_cons (c : ascii) (s t : string) :
  String c s +:+ t = String c (s +:+ t).
Proof. reflexivity. Qed.

Lemma prefix_space (c : ascii) (s : string) :
  String.prefix " " (String c s) = Ascii.eqb c space.
Proof.
  cbn [String.prefix]. destruct (ascii_dec " " c) as [<-|Hne].
  - by destruct s.
  - symmetry. apply Ascii.eqb_neq. by intros ->.
Qed.

(** [s.replace(" ", "")] takes out the space characters and nothing else. *)
Lemma replace_space (s : string) : replace " " "" s = without_spaces s.
Proof.
  unfold replace. induction s as [|c s IH]; [done|].
  cbn [replace_from without_spaces]. rewrite prefix_space.
  destruct (Ascii.eqb c space); cbn [String.length Nat.pred]; by rewrite IH.
Qed.

Lemma without_spaces_app (u v : string) :
  without_spaces (u +:+ v) = without_spaces u +:+ without_spaces v.
Proof.
  induction u as [|c u IH]; [done|].
  rewrite append_cons. cbn [without_spaces].
  destruct (Ascii.eqb c space); by rewrite IH.
Qed.

Lemma without_spaces_insert (u v : string) :
  without_spaces (u +:+ " " +:+ v) = without_spaces (u +:+ v).
Proof. by rewrite !without_spaces_app. Qed.

Lemma split_not_nil (sep : ascii) (s : string) : split sep s ≠ [].
Proof.
  induction s as [|c s IH]; [done|]. simpl.
  destruct (Ascii.eqb c sep); [done|]. by destruct (split sep s).
Qed.

Lemma py_index_in_range {A} (l : list A) (i : nat) (x : A) :
  l !! i = Some x → py_index l (Z.of_nat i) = Ok x.
Proof.
  intros Hx. pose proof (lookup_lt_Some _ _ _ Hx) as Hlt. unfold py_index.
  rewrite (proj2 (Z.ltb_ge _ _)) by lia.
  rewrite (proj2 (Z.leb_le _ _)) by lia.
  rewrite (proj2 (Z.ltb_lt _ _)) by lia.
  cbn [andb]. by rewrite Nat2Z.id, Hx.
Qed.

Lemma py_index_beyond {A} (l : list A) (i : Z) :
  Z.of_nat (length l) <= i → py_index l i = Raise IndexError.
Proof.
  intros Hle. unfold py_index.
  rewrite (proj2 (Z.ltb_ge _ _)) by lia.
  rewrite (proj2 (Z.ltb_ge i _)) by lia.
  by rewrite andb_false_r.
Qed.

Lemma py_index_last {A} (l : list A) (x : A) :
  last l = Some x → py_index l (-1) = Ok x.
Proof.
  intros Hx. rewrite last_lookup in Hx.
  pose proof (lookup_lt_Some _ _ _ Hx) as Hlt. unfold py_index.
  change (-1 <? 0) with true. cbn match.
  rewrite (proj2 (Z.leb_le _ _)) by lia.
  rewrite (proj2 (Z.ltb_lt _ _)) by lia.
  cbn [andb].
  replace (Z.to_nat (Z.of_nat (length l) + -1)) with (Nat.pred (length l)) by lia.
  by rewrite Hx.
Qed.

Lemma py_index_head {A} (l : list A) (x : A) :
  head l = Some x → py_index l 0 = Ok x.
Proof.
  intros Hx. apply (py_index_in_range l 0). by rewrite <-head_lookup.
Qed.

(** ** The set comparator *)

Lemma sort_Permutation (l : list string) : sort l ≡ₚ l.
Proof. apply merge_sort_Permutation. Qed.

Lemma sort_Sorted (l : list string) : Sorted String.le (sort l).
Proof. apply (Sorted_merge_sort String.le). Qed.

Lemma sort_eq_iff (a b : list string) : sort a = sort b ↔ a ≡ₚ b.
Proof.
  split.
  - intros Heq. rewrite <-(sort_Permutation a), <-(sort_Permutation b).
    by rewrite Heq.
  - intros Hperm. apply (Sorted_unique String.le); [apply sort_Sorted..|].
    by rewrite !sort_Permutation.
Qed.

Lemma compare_true_iff (a b : list string) :
  compare a b = true ↔ without_spaces <$> a ≡ₚ without_spaces <$> b.
Proof.
  unfold compare. rewrite bool_decide_eq_true, sort_eq_iff.
  by rewrite !(list_fmap_ext _ without_spaces _ (fun _ x _ => replace_space x)).
Qed.

Lemma compare_ext (a a' b b' : list string) :
  without_spaces <$> a ≡ₚ without_spaces <$> a' →
  without_spaces <$> b ≡ₚ without_spaces <$> b' →
  compare a b = compare a' b'.
Proof.
  intros Ha Hb. apply eq_true_iff_eq. rewrite !compare_true_iff.
  by rewrite Ha, Hb.
Qed.

(** C2 (as amended): [compare a b] holds exactly when the lists obtained by
    taking the space characters (U+0020) out of every element of [a] and of
    [b] and sorting them in the lexicographic order of the code points are
    equal, that is, when the two multisets of space-free elements are equal.
    The sorted list is an ordered rearrangement of its input, so the order
    of the elements does not count; no case folding takes place, so two
    one-element lists compare equal only if their space-free elements are
    the same string. *)
Theorem compare_multiset_of_space_free (a b : list string) :
  (compare a b = true ↔
     sort (without_spaces <$> a) = sort (without_spaces <$> b))
  ∧ (compare a b = true ↔ without_spaces <$> a ≡ₚ without_spaces <$> b)
  ∧ (∀ x, replace " " "" x = without_spaces x)
  ∧ (∀ l, Sorted String.le (sort l) ∧ sort l ≡ₚ l)
  ∧ (∀ x y, compare [x] [y] = true ↔ without_spaces x = without_spaces y).
Proof.
  split_and!.
  - by rewrite compare_true_iff, sort_eq_iff.
  - apply compare_true_iff.
  - apply replace_space.
  - intros l. split; [apply sort_Sorted | apply sort_Permutation].
  - intros x y. rewrite compare_true_iff. cbn [fmap list_fmap]. split.
    + intros Hp. by apply Permutation_singleton_inj in Hp.
    + by intros ->.
Qed.

(** C2, the claim as stated, fails: a tab is whitespace, and [compare] keeps
    it. The two lists below are equal once all whitespace is taken out of
    their elements, and [compare] tells them apart. *)
Lemma compare_keeps_tabs :
  sort (without_whitespace <$> [String "a" (String tab "b")])
    = sort (without_whitespace <$> ["ab"])
  ∧ compare [String "a" (String tab "b")] ["ab"] = false.
Proof. split; reflexivity. Qed.

(** C9 (as amended): [compare] is symmetric and reflexive, it does not
    change when either argument is permuted, and it does not change when a
    space character (U+0020) is put into, or taken out of, an element of
    either argument. *)
Theorem compare_symmetric_reflexive_invariant :
  (∀ a b, compare a b = compare b a)
  ∧ (∀ a, compare a a = true)
  ∧ (∀ a a' b, a ≡ₚ a' → compare a b = compare a' b)
  ∧ (∀ a b b', b ≡ₚ b' → compare a b = compare a b')
  ∧ (∀ l1 l2 u v b,
       compare (l1 ++ (u +:+ " " +:+ v) :: l2) b = compare (l1 ++ (u +:+ v) :: l2) b)
  ∧ (∀ l1 l2 u v a,
       compare a (l1 ++ (u +:+ " " +:+ v) :: l2) = compare a (l1 ++ (u +:+ v) :: l2)).
Proof.
  split_and!.
  - intros a b. unfold compare. apply bool_decide_ext. split; congruence.
  - intros a. by apply compare_true_iff.
  - intros a a' b Hp. apply compare_ext; [by rewrite Hp | done].
  - intros a b b' Hp. apply compare_ext; [done | by rewrite Hp].
  - intros l1 l2 u v b. apply compare_ext; [|done].
    by rewrite !fmap_app, !fmap_cons, without_spaces_insert.
  - intros l1 l2 u v a. apply compare_ext; [done|].
    by rewrite !fmap_app, !fmap_cons, without_spaces_insert.
Qed.

Lemma compare_invariance_witness :
  compare ["b"; "a c"] ["ac"; "b"] = compare ["a c"; "b"] ["ac"; "b"].
Proof.
  apply (proj1 (proj2 (proj2 compare_symmetric_reflexive_invariant))).
  apply Permutation_swap.
Defined.

(** C9, the claim as stated, fails: putting a tab, which is whitespace, into
    an element changes the outcome. *)
Lemma compare_tab_changes_outcome :
  compare ["ab"] ["ab"] = true
  ∧ compare [String "a" (String tab "b")] ["ab"] = false.
Proof. split; reflexivity. Qed.

(** ** The keyword matcher *)

Lemma bind_ok {A B} (m : result A) (f : A → result B) (b : B) :
  m ≫= f = Ok b → ∃ a, m = Ok a ∧ f a = Ok b.
Proof. destruct m as [a|e]; [eauto | done]. Qed.

Lemma matching_lines_filter (keyword : string) (lines : list string) :
  matching_lines keyword lines = strip <$> filter (line_matches keyword) lines.
Proof.
  induction lines as [|line lines IH]; [done|].
  cbn [matching_lines]. rewrite filter_cons.
  destruct (decide (line_matches keyword line)) as [Hm|Hm]; unfold line_matches in Hm.
  - by rewrite Hm, fmap_cons, IH.
  - by apply not_true_is_false in Hm as ->.
Qed.

Lemma keyword_matches_substring (keyword text : string) :
  substring_keyword keyword →
  keyword_matches keyword text =
    Ok (let hits := matching_lines keyword (split newline text) in
        if decide (hits = []) then [""] else hits).
Proof. unfold substring_keyword, keyword_matches. by intros ->. Qed.

Lemma keyword_matches_positional (keyword text : string) (n : Z) :
  positional keyword → int (removeprefix "_" keyword) = Ok n →
  keyword_matches keyword text =
    line ← py_index (split newline text) (n - 1); mret [line].
Proof.
  unfold positional, keyword_matches. intros -> ->. cbn [mbind result_bind].
  by destruct (py_index _ _).
Qed.

Lemma keyword_matches_not_nil (keyword text : string) (matches : list string) :
  keyword_matches keyword text = Ok matches → matches ≠ [].
Proof.
  unfold keyword_matches. intros (ms & _ & Hms)%bind_ok.
  injection Hms as <-. by case_decide.
Qed.

Lemma empty_matches_lookup (keywords : list string) (key : string) :
  empty_matches keywords !! key =
    if decide (key ∈ strip <$> keywords) then Some [] else None.
Proof.
  unfold empty_matches.
  enough (∀ d : gmap string (list string),
    foldl (fun d keyword => <[strip keyword := []]> d) d keywords !! key =
      if decide (key ∈ strip <$> keywords) then Some [] else d !! key) as ->
    by done.
  induction keywords as [|keyword keywords IH]; intros d.
  - cbn. case_decide as Hin; [by apply elem_of_nil in Hin | done].
  - cbn [foldl]. rewrite IH, fmap_cons.
    destruct (decide (key ∈ strip <$> keywords)) as [Hin|Hnin].
    { rewrite decide_True; [done | by right]. }
    destruct (decide (key = strip keyword)) as [->|Hne].
    + rewrite lookup_insert_eq, decide_True; [done | by left].
    + rewrite lookup_insert_ne by done.
      rewrite decide_False; [done | by apply not_elem_of_cons].
Qed.

Lemma empty_matches_has_entries (keywords : list string) :
  has_entries (empty_matches keywords) keywords.
Proof.
  intros keyword Hin. rewrite empty_matches_lookup.
  rewrite decide_True; [done|]. by apply list_elem_of_fmap_2.
Qed.

Lemma search_loop_lookup (keywords : list string) (text : string) :
  ∀ d m, search_loop keywords text d = Ok m →
    ∀ key, m !! key = (fun entry => entry ++ appended key text keywords) <$> d !! key.
Proof.
  induction keywords as [|keyword keywords IH]; intros d m Hm key.
  - injection Hm as <-. destruct (d !! key); cbn; [by rewrite app_nil_r | done].
  - cbn [search_loop] in Hm.
    apply bind_ok in Hm as (matches & Hk & Hm).
    apply bind_ok in Hm as (entry & He & Hm).
    unfold dict_get in He. destruct (d !! strip keyword) as [e|] eqn:Hd; [|done].
    injection He as ->. rewrite (IH _ _ Hm key). cbn [appended]. rewrite Hk.
    destruct (decide (strip keyword = key)) as [<-|Hne].
    + rewrite lookup_insert_eq, Hd. cbn. by rewrite app_assoc.
    + by rewrite lookup_insert_ne.
Qed.

Lemma search_loop_returns (keywords : list string) (text : string) :
  ∀ d, Forall (fun keyword => is_ok (keyword_matches keyword text)) keywords →
    has_entries d keywords → is_ok (search_loop keywords text d).
Proof.
  induction keywords as [|keyword keywords IH]; intros d Hok Hd; [done|].
  apply Forall_cons in Hok as [Hk Hok]. cbn [search_loop].
  destruct (keyword_matches keyword text) as [matches|]; [|done].
  destruct (Hd keyword) as [entry He]; [left|]. unfold dict_get. rewrite He. cbn.
  apply IH; [done|]. intros k Hin.
  destruct (decide (strip keyword = strip k)) as [->|Hne].
  - rewrite lookup_insert_eq. eauto.
  - rewrite lookup_insert_ne by done. apply Hd. by right.
Qed.

Lemma search_loop_raises (keywords : list string) (text keyword : string) :
  keyword ∈ keywords → ¬ is_ok (keyword_matches keyword text) →
  ∀ d, ¬ is_ok (search_loop keywords text d).
Proof.
  intros Hin Hbad. induction keywords as [|k keywords IH]; intros d.
  { by apply elem_of_nil in Hin. }
  cbn [search_loop]. destruct (keyword_matches k text) as [matches|] eqn:Hk.
  - apply elem_of_cons in Hin as [->|Hin]; [by rewrite Hk in Hbad|].
    cbn. destruct (dict_get d (strip k)); cbn; [by apply IH | tauto].
  - cbn. tauto.
Qed.

Lemma search_for_words_lookup (keywords : list string) (text : string)
    (m : gmap string (list string)) (key : string) :
  search_for_words keywords text = Ok m →
  m !! key = if decide (key ∈ strip <$> keywords)
             then Some (appended key text keywords) else None.
Proof.
  intros Hm. rewrite (search_loop_lookup _ _ _ _ Hm), empty_matches_lookup.
  by case_decide.
Qed.

Lemma search_for_words_has_entries (keywords : list string) (text : string)
    (m : gmap string (list string)) :
  search_for_words keywords text = Ok m → has_entries m keywords.
Proof.
  intros Hm keyword Hin. rewrite (search_for_words_lookup _ _ _ _ Hm).
  rewrite decide_True; [done|]. by apply list_elem_of_fmap_2.
Qed.

Lemma search_for_words_raises (keywords : list string) (text keyword : string) :
  keyword ∈ keywords → ¬ is_ok (keyword_matches keyword text) →
  ∃ e, search_for_words keywords text = Raise e.
Proof.
  intros Hin Hbad.
  pose proof (search_loop_raises _ _ _ Hin Hbad (empty_matches keywords)) as Hr.
  unfold search_for_words. destruct (search_loop _ _ _); [by destruct Hr | eauto].
Qed.

Lemma search_for_words_singleton (keyword text : string) :
  search_for_words [keyword] text =
    matches ← keyword_matches keyword text; mret {[strip keyword := matches]}.
Proof.
  unfold search_for_words, empty_matches. cbn [foldl search_loop].
  destruct (keyword_matches keyword text) as [matches|]; [|done].
  cbn. unfold dict_get. rewrite lookup_insert_eq. cbn.
  by rewrite insert_insert_eq, insert_empty.
Qed.

Lemma appended_absent (key text : string) (keywords : list string) :
  key ∉ strip <$> keywords → appended key text keywords = [].
Proof.
  induction keywords as [|k keywords IH]; [done|].
  rewrite fmap_cons, not_elem_of_cons. intros [Hne Hnin].
  cbn [appended]. rewrite decide_False by done. by rewrite IH.
Qed.

Lemma appended_unique (text keyword : string) (keywords : list string) :
  NoDup (strip <$> keywords) → keyword ∈ keywords →
  appended (strip keyword) text keywords =
    match keyword_matches keyword text with
    | Ok matches => matches
    | Raise _ => []
    end.
Proof.
  induction keywords as [|k keywords IH]; intros Hnd Hin.
  { by apply elem_of_nil in Hin. }
  rewrite fmap_cons in Hnd. apply NoDup_cons in Hnd as [Hk Hnd].
  cbn [appended]. apply elem_of_cons in Hin as [->|Hin].
  - rewrite decide_True by done. by rewrite appended_absent, app_nil_r.
  - rewrite decide_False.
    + by rewrite IH.
    + intros Heq. apply Hk. rewrite Heq. by apply list_elem_of_fmap_2.
Qed.

(** ** Comparison and feature mapping *)

Lemma lookup_mapping_feature_of (keyword_mapping : list (list string))
    (changed_feature : string) :
  well_formed_table keyword_mapping →
  lookup_mapping changed_feature keyword_mapping =
    Ok (feature_of keyword_mapping changed_feature).
Proof.
  unfold feature_of.
  induction keyword_mapping as [|row rest IH]; intros Hwf; [done|].
  apply Forall_cons in Hwf as [Hrow Hwf].
  cbn [lookup_mapping list_find].
  destruct (head row) as [key|] eqn:Hkey; [|by destruct row].
  rewrite (py_index_head _ _ Hkey). cbn [mbind result_bind].
  assert (row_key row = key) as Hrk by (unfold row_key; by rewrite Hkey).
  destruct (decide (strip (lower changed_feature) = strip (lower key))).
  - rewrite decide_True by (by rewrite Hrk).
    destruct (last row) as [feature|] eqn:Hfeat.
    + rewrite (py_index_last _ _ Hfeat). unfold row_feature. by rewrite Hfeat.
    + by apply last_None in Hfeat.
  - rewrite decide_False by (by rewrite Hrk).
    rewrite (IH Hwf). by destruct (list_find _ rest) as [[??]|].
Qed.

Lemma map_changed_feature_of (keyword_mapping : list (list string))
    (changed mapped : list string) :
  well_formed_table keyword_mapping →
  map_changed changed keyword_mapping mapped =
    Ok (mapped ++ (feature_of keyword_mapping <$> changed)).
Proof.
  intros Hwf. revert mapped.
  induction changed as [|cf changed IH]; intros mapped.
  - by rewrite app_nil_r.
  - cbn [map_changed]. rewrite lookup_mapping_feature_of by done.
    cbn [mbind result_bind]. by rewrite IH, fmap_cons, <-app_assoc.
Qed.

Lemma dict_get_entry (m : gmap string (list string)) (keyword : string) :
  is_Some (m !! strip keyword) →
  dict_get m (strip keyword) = Ok (entry_of m keyword).
Proof. unfold dict_get, entry_of. by intros [entry ->]. Qed.

Lemma cm_loop_spec (m1 m2 : gmap string (list string))
    (keyword_mapping : list (list string)) (keywords : list string) :
  well_formed_table keyword_mapping →
  has_entries m1 keywords → has_entries m2 keywords →
  ∀ st, mapped_inv keyword_mapping st →
    ∃ st', cm_loop m1 m2 keywords keyword_mapping st = Ok st'
      ∧ changed_features st' = changed_features st ++ changed_of m1 m2 keywords
      ∧ df_list st' = df_list st ++ (keywords ≫= triple_of m1 m2)
      ∧ mapped_inv keyword_mapping st'.
Proof.
  intros Hwf. induction keywords as [|keyword keywords IH]; intros H1 H2 st Hinv.
  { exists st. by rewrite !app_nil_r. }
  cbn [cm_loop].
  rewrite (dict_get_entry m1), (dict_get_entry m2) by (apply H1 || apply H2; left).
  cbn [mbind result_bind]. rewrite map_changed_feature_of by done.
  cbn [mbind result_bind].
  edestruct IH as (st' & Hrun & Hch & Hdf & Hinv'); last first.
  { exists st'. split; [exact Hrun|]. split_and!; [| |done].
    - rewrite Hch. cbn [changed_features]. unfold changed_of.
      rewrite filter_cons.
      destruct (decide (changed m1 m2 keyword)) as [Hc|Hc]; unfold changed in Hc.
      + by rewrite Hc, fmap_cons, <-app_assoc.
      + apply not_false_is_true in Hc. by rewrite Hc.
    - rewrite Hdf. cbn [df_list]. by rewrite bind_cons, <-app_assoc. }
  - intros f. cbn [mapped_features changed_features].
    rewrite elem_of_app, list_elem_of_fmap, (Hinv f).
    split.
    + intros [(cf & Hcf & ->)|(cf & -> & Hcf)]; [|by eauto].
      exists cf. split; [|done]. destruct (compare _ _); set_solver.
    + intros (cf & Hcf & ->). right. by exists cf.
  - intros k Hin. apply H2. by right.
  - intros k Hin. apply H1. by right.
Qed.

Lemma dedup_sort_spec (l : list string) :
  Sorted String.le (dedup_sort l) ∧ NoDup (dedup_sort l)
  ∧ ∀ x, x ∈ dedup_sort l ↔ x ∈ l.
Proof.
  unfold dedup_sort. split_and!.
  - apply sort_Sorted.
  - rewrite sort_Permutation. apply NoDup_remove_dups.
  - intros x. by rewrite sort_Permutation, elem_of_remove_dups.
Qed.

Lemma dedup_sort_ext (l l' : list string) :
  (∀ x, x ∈ l ↔ x ∈ l') → dedup_sort l = dedup_sort l'.
Proof.
  intros Heq. apply sort_eq_iff.
  apply NoDup_Permutation; [apply NoDup_remove_dups..|].
  intros x. by rewrite !elem_of_remove_dups.
Qed.

Lemma compare_and_mapping_spec (m1 m2 : gmap string (list string))
    (keywords : list string) (keyword_mapping : list (list string)) :
  well_formed_table keyword_mapping →
  has_entries m1 keywords → has_entries m2 keywords →
  compare_and_mapping m1 m2 keywords keyword_mapping =
    Ok (CStr (change_flag (changed_of m1 m2 keywords))
        :: CStr (join ", " (changed_of m1 m2 keywords))
        :: CStr (join ", " (dedup_sort (feature_of keyword_mapping
                                          <$> changed_of m1 m2 keywords)))
        :: (keywords ≫= triple_of m1 m2)).
Proof.
  intros Hwf H1 H2. unfold compare_and_mapping.
  destruct (cm_loop_spec m1 m2 keyword_mapping keywords Hwf H1 H2 cm_init)
    as (st & -> & Hch & Hdf & Hinv).
  { intros f. cbn. split; [by intros ?%elem_of_nil|].
    by intros (? & ?%elem_of_nil & _). }
  cbn [mbind result_bind mret result_ret]. cbn in Hch, Hdf. rewrite Hch, Hdf.
  rewrite (dedup_sort_ext (mapped_features st)
             (feature_of keyword_mapping <$> changed_of m1 m2 keywords)); [done|].
  intros f. rewrite (Hinv f), Hch, list_elem_of_fmap.
  split; [intros (cf & Hcf & ->) | intros (cf & -> & Hcf)]; eauto.
Qed.

(** ** The pair evaluator *)

(** Unfolds the binds of the two monads. *)
Ltac run_io :=
  unfold mbind, mret, io_bind, io_ret, result_bind, result_ret; cbn beta iota.

(** Evaluates the indexing and the join of a two-element list of links. *)
Ltac index_pair old latest :=
  change (py_index [old; latest] 0) with (Ok old);
  change (py_index [old; latest] (-1)) with (Ok latest);
  change (join "" [old; latest]) with (old +:+ latest).

Lemma status_row_pair (old latest status : string) :
  status_row [old; latest] status = Ok (short_row old latest status).
Proof. reflexivity. Qed.

Lemma guard_not_taken (n1 n2 : Z) :
  n1 <= page_limit → n2 <= page_limit →
  (page_limit <? n2) || (page_limit <? n1) = false.
Proof. intros H1 H2. apply orb_false_iff. rewrite !Z.ltb_ge. lia. Qed.

Lemma guard_taken (n1 n2 : Z) :
  page_limit < n1 ∨ page_limit < n2 →
  (page_limit <? n2) || (page_limit <? n1) = true.
Proof. intros H. apply orb_true_iff. rewrite !Z.ltb_lt. tauto. Qed.

Lemma bad_positional_raises (keyword text : string) :
  bad_positional keyword text → ¬ is_ok (keyword_matches keyword text).
Proof.
  intros [Hpos Hbad]. unfold positional in Hpos. unfold keyword_matches.
  rewrite Hpos. destruct (int _) as [n|]; cbn; [|tauto].
  rewrite py_index_beyond by lia. cbn. tauto.
Qed.

Section pair_evaluator.

Context (rd : reader) (keywords : list string) (vendor_code : string)
  (keyword_mapping : list (list string)).

(** The body of [magic_main] on a pair: its outcome. *)
Lemma magic_body_result (old latest : string) (log : list event) :
  (magic_body rd [old; latest] keywords vendor_code keyword_mapping log).2
  = evaluation rd old latest keywords vendor_code keyword_mapping.
Proof.
  unfold magic_body, evaluation, document_text, call_count_of_pages,
    call_fitz_extract_all_words, lift.
  index_pair old latest. run_io.
  destruct (count_of_pages rd old) as [n1|]; [|done].
  destruct (count_of_pages rd latest) as [n2|]; [|done].
  destruct ((page_limit <? n2) || (page_limit <? n1)); [done|].
  destruct (fitz_extract_all_words rd old) as [lines1|]; [|done].
  destruct (fitz_extract_all_words rd latest) as [lines2|]; [|done].
  destruct (search_for_words keywords (text_of lines1)) as [m1|]; [|done].
  destruct (search_for_words keywords (text_of lines2)) as [m2|]; [|done].
  by destruct (compare_and_mapping m1 m2 keywords keyword_mapping).
Qed.

(** [magic_main] turns every exception of its body into the error row. *)
Lemma magic_main_result (old latest : string) (log : list event) :
  (magic_main rd [old; latest] keywords vendor_code keyword_mapping log).2
  = match evaluation rd old latest keywords vendor_code keyword_mapping with
    | Ok row => Ok row
    | Raise _ => Ok (short_row old latest "Error in reading")
    end.
Proof.
  rewrite <-(magic_body_result old latest log).
  unfold magic_main, try_except.
  by destruct (magic_body _ _ _ _ _ _) as [log' [row|e]].
Qed.

(** The guard: the row and the calls made to the reader. *)
Lemma magic_main_page_limit (old latest : string) (log : list event)
    (n1 n2 : Z) :
  count_of_pages rd old = Ok n1 → count_of_pages rd latest = Ok n2 →
  page_limit < n1 ∨ page_limit < n2 →
  magic_main rd [old; latest] keywords vendor_code keyword_mapping log
  = (log ++ [PageCount old] ++ [PageCount latest],
     Ok (short_row old latest "Page limit exceeded")).
Proof.
  intros H1 H2 Hlimit.
  unfold magic_main, try_except, magic_body, call_count_of_pages, lift.
  index_pair old latest. run_io.
  rewrite H1, H2, (guard_taken _ _ Hlimit).
  by rewrite status_row_pair, <-app_assoc.
Qed.

Lemma evaluation_raises_on_keyword (old latest : string) (n1 n2 : Z)
    (lines1 lines2 : list string) (keyword : string) :
  count_of_pages rd old = Ok n1 → count_of_pages rd latest = Ok n2 →
  n1 <= page_limit → n2 <= page_limit →
  fitz_extract_all_words rd old = Ok lines1 →
  fitz_extract_all_words rd latest = Ok lines2 →
  keyword ∈ keywords →
  bad_positional keyword (text_of lines1) ∨ bad_positional keyword (text_of lines2) →
  ∃ e, evaluation rd old latest keywords vendor_code keyword_mapping = Raise e.
Proof.
  intros Hc1 Hc2 Hn1 Hn2 He1 He2 Hin Hbad. unfold evaluation.
  rewrite Hc1, Hc2. cbn [mbind result_bind].
  rewrite (guard_not_taken _ _ Hn1 Hn2), He1, He2. cbn [mbind result_bind].
  destruct (search_for_words keywords (text_of lines1)) as [m1|e1] eqn:Hs1;
    [|by eauto].
  destruct Hbad as [Hbad|Hbad]; apply bad_positional_raises in Hbad;
    destruct (search_for_words_raises _ _ _ Hin Hbad) as [e Hr].
  - congruence.
  - rewrite Hr. cbn. eauto.
Qed.

End pair_evaluator.

(** ** Claims about the keyword matcher *)

(** C3 (as amended): on a keyword list whose stripped keywords are pairwise
    distinct, [search_for_words] returns whenever no keyword is positional,
    and whenever it returns the result has an entry for every keyword of the
    list, under the stripped keyword, and no entry is empty. The entry of a
    substring keyword is the list of the stripped lines whose stripped,
    lowercased form contains the stripped, lowercased keyword, in the order
    of the text and with repetitions kept; when no line matches, the entry
    is the one-element list holding the empty string. *)
Theorem search_for_words_entries (keywords : list string) (text : string) :
  NoDup (strip <$> keywords) →
  (Forall substring_keyword keywords → is_ok (search_for_words keywords text))
  ∧ ∀ m, search_for_words keywords text = Ok m →
      ∀ keyword, keyword ∈ keywords →
        ∃ entry, m !! strip keyword = Some entry ∧ entry ≠ [] ∧
          (substring_keyword keyword →
             let hits := strip <$> filter (line_matches keyword)
                                     (split newline text) in
             (hits ≠ [] → entry = hits) ∧ (hits = [] → entry = [""])).
Proof.
  intros Hnd. split.
  - intros Hsub. apply search_loop_returns; [|apply empty_matches_has_entries].
    eapply Forall_impl; [exact Hsub|]. intros keyword Hk. cbn beta.
    by rewrite (keyword_matches_substring _ _ Hk).
  - intros m Hm keyword Hin.
    rewrite (search_for_words_lookup _ _ _ _ Hm).
    rewrite decide_True by (by apply list_elem_of_fmap_2).
    rewrite (appended_unique _ _ _ Hnd Hin).
    destruct (keyword_matches keyword text) as [matches|e] eqn:Hk.
    + exists matches. split_and!; [done | by eapply keyword_matches_not_nil |].
      intros Hsub. rewrite (keyword_matches_substring _ _ Hsub) in Hk.
      injection Hk as <-. rewrite matching_lines_filter. cbn zeta.
      by case_decide.
    + destruct (search_for_words_raises keywords text keyword Hin) as [e' He'].
      * rewrite Hk. by intros [].
      * congruence.
Qed.

Lemma search_for_words_entries_witness :
  NoDup (strip <$> ["voltage"; " power"])
  ∧ is_ok (search_for_words ["voltage"; " power"]
             ("voltage: 5v" +:+ String newline "current 1a")).
Proof.
  assert (NoDup (strip <$> ["voltage"; " power"])) as Hnd.
  { refine (bool_decide_unpack _ _). vm_compute. exact I. }
  split; [exact Hnd|].
  apply (search_for_words_entries _ _ Hnd). by repeat constructor.
Defined.

(** C3, the claim as stated, fails on a list that names a keyword twice: the
    matches are appended to the entry once per occurrence, so a keyword that
    no line contains gets two placeholders, not one. *)
Lemma search_for_words_repeated_keyword :
  filter (line_matches "x") (split newline "a") = []
  ∧ search_for_words ["x"; "x"] "a" = Ok {[ "x" := [""; ""] ]}.
Proof. split; vm_compute; reflexivity. Qed.

(** C10: for the keyword ["_0"] the index is -1, so on every text the match
    is the last line of the text and nothing is raised. *)
Theorem underscore_zero_selects_last_line (text : string) :
  ∃ line, last (split newline text) = Some line
    ∧ keyword_matches "_0" text = Ok [line]
    ∧ search_for_words ["_0"] text = Ok {[ "_0" := [line] ]}.
Proof.
  destruct (last (split newline text)) as [line|] eqn:Hlast.
  - exists line.
    assert (keyword_matches "_0" text = Ok [line]) as Hk.
    { rewrite (keyword_matches_positional "_0" text 0) by done.
      change (0 - 1) with (-1). by rewrite (py_index_last _ _ Hlast). }
    split_and!; [done..|]. by rewrite search_for_words_singleton, Hk.
  - apply last_None in Hlast. by apply split_not_nil in Hlast.
Qed.

(** C8 (as amended): for a positional keyword whose number is [n] and a text
    of at least [n] lines, [n] at least 1, the match is the line of index
    [n - 1] and nothing else, whatever the line holds; a number above the
    number of lines makes [search_for_words] raise, and [magic_main] then
    returns the row with the status "Error in reading". *)
Theorem positional_keyword_selects_line (keyword text : string) (n : Z) :
  positional keyword → int (removeprefix "_" keyword) = Ok n →
  (1 <= n <= Z.of_nat (length (split newline text)) →
     ∃ line, split newline text !! Z.to_nat (n - 1) = Some line
       ∧ search_for_words [keyword] text = Ok {[ strip keyword := [line] ]}
       ∧ ∀ keywords m, NoDup (strip <$> keywords) → keyword ∈ keywords →
           search_for_words keywords text = Ok m →
           m !! strip keyword = Some [line])
  ∧ (Z.of_nat (length (split newline text)) < n →
     (∀ keywords, keyword ∈ keywords →
        ∃ e, search_for_words keywords text = Raise e)
     ∧ ∀ rd old latest keywords vendor_code keyword_mapping log n1 n2
         lines1 lines2,
         keyword ∈ keywords →
         count_of_pages rd old = Ok n1 → count_of_pages rd latest = Ok n2 →
         n1 <= page_limit → n2 <= page_limit →
         fitz_extract_all_words rd old = Ok lines1 →
         fitz_extract_all_words rd latest = Ok lines2 →
         text = text_of lines1 ∨ text = text_of lines2 →
         (magic_main rd [old; latest] keywords vendor_code keyword_mapping log).2
         = Ok (short_row old latest "Error in reading")).
Proof.
  intros Hpos Hint. split.
  - intros Hn.
    destruct (lookup_lt_is_Some_2 (split newline text) (Z.to_nat (n - 1)))
      as [line Hline]; [lia|].
    assert (keyword_matches keyword text = Ok [line]) as Hk.
    { rewrite (keyword_matches_positional _ _ _ Hpos Hint).
      replace (n - 1) with (Z.of_nat (Z.to_nat (n - 1))) by lia.
      by rewrite (py_index_in_range _ _ _ Hline). }
    exists line. split_and!; [done| |].
    + by rewrite search_for_words_singleton, Hk.
    + intros keywords m Hnd Hin Hm.
      rewrite (search_for_words_lookup _ _ _ _ Hm).
      rewrite decide_True by (by apply list_elem_of_fmap_2).
      by rewrite (appended_unique _ _ _ Hnd Hin), Hk.
  - intros Hn.
    assert (bad_positional keyword text) as Hbad.
    { split; [done|]. by rewrite Hint. }
    split.
    + intros keywords Hin. apply (search_for_words_raises _ _ keyword Hin).
      by apply bad_positional_raises.
    + intros rd old latest keywords vendor_code keyword_mapping log n1 n2
        lines1 lines2 Hin Hc1 Hc2 Hn1 Hn2 He1 He2 Htext.
      rewrite magic_main_result.
      destruct (evaluation_raises_on_keyword rd keywords vendor_code
                  keyword_mapping old latest n1 n2 lines1 lines2 keyword)
        as [e ->]; try done.
      destruct Htext as [<-|<-]; [by left | by right].
Qed.

Lemma positional_keyword_selects_line_witness :
  ∃ line, split newline ("a" +:+ String newline "b") !! 1%nat = Some line
    ∧ search_for_words ["_2"] ("a" +:+ String newline "b")
      = Ok {[ "_2" := [line] ]}.
Proof.
  destruct (positional_keyword_selects_line "_2" ("a" +:+ String newline "b") 2
              eq_refl eq_refl) as [Hin _].
  destruct Hin as (line & Hline & Hsearch & _).
  - split; [lia | vm_compute; discriminate].
  - exists line. split; [exact Hline | exact Hsearch].
Defined.

(** C8, the claim as stated, fails for the number 0, which is outside the
    range 1..2 of a two-line text: the keyword ["_0"] raises nothing and
    selects the last line. *)
Lemma underscore_zero_not_fatal :
  positional "_0" ∧ int (removeprefix "_" "_0") = Ok 0
  ∧ ¬ (1 <= 0 <= Z.of_nat (length (split newline ("a" +:+ String newline "b"))))
  ∧ search_for_words ["_0"] ("a" +:+ String newline "b") = Ok {[ "_0" := ["b"] ]}.
Proof.
  split_and!; [done | done | | vm_compute; reflexivity].
  intros [Hle _]. lia.
Qed.

(** ** Claims about the pair evaluator *)

Lemma change_flag_yes (l : list string) : change_flag l = "Yes" ↔ l ≠ [].
Proof. unfold change_flag. by case_decide. Qed.

Lemma change_flag_no (l : list string) : change_flag l = "No" ↔ l = [].
Proof. unfold change_flag. by case_decide. Qed.

Lemma changed_of_nil (m1 m2 : gmap string (list string)) (keywords : list string) :
  changed_of m1 m2 keywords = [] ↔
  ∀ keyword, keyword ∈ keywords →
    compare (entry_of m1 keyword) (entry_of m2 keyword) = true.
Proof.
  unfold changed_of. split.
  - intros Hnil%fmap_nil_inv keyword Hin. apply not_false_iff_true. intros Hf.
    by apply (filter_nil_not_elem_of _ _ keyword Hnil Hf).
  - intros Hall. induction keywords as [|k keywords IH]; [done|].
    rewrite filter_cons, decide_False.
    + apply IH. intros keyword Hin. apply Hall. by right.
    + unfold changed. rewrite Hall; [done | by left].
Qed.

Lemma changed_of_not_nil (m1 m2 : gmap string (list string))
    (keywords : list string) :
  changed_of m1 m2 keywords ≠ [] ↔
  ∃ keyword, keyword ∈ keywords ∧
    compare (entry_of m1 keyword) (entry_of m2 keyword) = false.
Proof.
  split.
  - unfold changed_of. induction keywords as [|k keywords IH]; [done|].
    rewrite filter_cons.
    destruct (decide (changed m1 m2 k)) as [Hc|Hc].
    + intros _. exists k. split; [by left | done].
    + intros Hne. destruct (IH Hne) as (keyword & Hin & Hf).
      exists keyword. split; [by right | done].
  - intros (keyword & Hin & Hf) Hnil. rewrite changed_of_nil in Hnil.
    by rewrite (Hnil keyword Hin) in Hf.
Qed.

Section pair_evaluator_claims.

Context (rd : reader) (keywords : list string) (vendor_code : string)
  (keyword_mapping : list (list string)) (old latest : string)
  (log : list event).

(** C1 (as amended): when neither the page guard nor a failure cuts the
    evaluation short, the row has the nine leading cells of the report
    followed by one triple per keyword; its change flag is "Yes" exactly when
    the two match collections of at least one keyword compare unequal and
    "No" exactly when none does; its changed-keyword cell lists the stripped
    changed keywords in the order of the keyword list. *)
Theorem normal_row_change_flag (n1 n2 : Z) (lines1 lines2 : list string)
    (m1 m2 : gmap string (list string)) :
  count_of_pages rd old = Ok n1 → count_of_pages rd latest = Ok n2 →
  n1 <= page_limit → n2 <= page_limit →
  fitz_extract_all_words rd old = Ok lines1 →
  fitz_extract_all_words rd latest = Ok lines2 →
  search_for_words keywords (text_of lines1) = Ok m1 →
  search_for_words keywords (text_of lines2) = Ok m2 →
  well_formed_table keyword_mapping →
  let flag := change_flag (changed_of m1 m2 keywords) in
  (magic_main rd [old; latest] keywords vendor_code keyword_mapping log).2
  = Ok ([CStr old; CStr latest; CStr (replace pdf_server "" (old +:+ latest));
         CStr vendor_code;
         CStr (str_of_nat (String.length (text_of lines1)));
         CStr (str_of_nat (String.length (text_of lines2)));
         CStr flag;
         CStr (join ", " (strip <$> filter (changed m1 m2) keywords));
         CStr (join ", " (dedup_sort (feature_of keyword_mapping
                                        <$> changed_of m1 m2 keywords)))]
        ++ (keywords ≫= triple_of m1 m2))
  ∧ (flag = "Yes" ↔
       ∃ keyword, keyword ∈ keywords ∧
         compare (entry_of m1 keyword) (entry_of m2 keyword) = false)
  ∧ (flag = "No" ↔
       ∀ keyword, keyword ∈ keywords →
         compare (entry_of m1 keyword) (entry_of m2 keyword) = true)
  ∧ has_entries m1 keywords ∧ has_entries m2 keywords.
Proof.
  intros Hc1 Hc2 Hn1 Hn2 He1 He2 Hs1 Hs2 Hwf flag.
  pose proof (search_for_words_has_entries _ _ _ Hs1) as H1.
  pose proof (search_for_words_has_entries _ _ _ Hs2) as H2.
  split_and!; [| |  |done|done].
  - rewrite magic_main_result. unfold evaluation.
    rewrite Hc1, Hc2. cbn [mbind result_bind].
    rewrite (guard_not_taken _ _ Hn1 Hn2), He1, He2. cbn [mbind result_bind].
    rewrite Hs1, Hs2. cbn [mbind result_bind].
    by rewrite (compare_and_mapping_spec _ _ _ _ Hwf H1 H2).
  - unfold flag. by rewrite change_flag_yes, changed_of_not_nil.
  - unfold flag. by rewrite change_flag_no, changed_of_nil.
Qed.

(** C5: when the page count of either document is above 200, [magic_main]
    returns the four-cell row of the two links, their concatenation without
    the server prefix, and "Page limit exceeded"; it has made the two page
    count calls and no text extraction call. *)
Theorem page_limit_short_circuit (n1 n2 : Z) :
  count_of_pages rd old = Ok n1 → count_of_pages rd latest = Ok n2 →
  200 < n1 ∨ 200 < n2 →
  magic_main rd [old; latest] keywords vendor_code keyword_mapping log
  = (log ++ [PageCount old; PageCount latest],
     Ok [CStr old; CStr latest; CStr (replace pdf_server "" (old +:+ latest));
         CStr "Page limit exceeded"])
  ∧ ∀ link,
      TextExtraction link ∈
        (magic_main rd [old; latest] keywords vendor_code keyword_mapping log).1 →
      TextExtraction link ∈ log.
Proof.
  intros Hc1 Hc2 Hlimit.
  rewrite (magic_main_page_limit rd keywords vendor_code keyword_mapping
             old latest log n1 n2 Hc1 Hc2 Hlimit).
  split; [done|]. intros link. cbn [fst]. rewrite !elem_of_app.
  intros [Hin|[Hin|Hin]]; [done|..]; by apply list_elem_of_singleton in Hin.
Qed.

(** On a pair of strings, [magic_main] always returns a row and never
    raises (for a row of the sheet with an empty cell, see
    [magic_main_cells_nan]).
    Whenever its body raises, the row is the four-cell row of the two links,
    their concatenation without the server prefix, and "Error in reading".
    This is the case when a page count call fails, when, the page guard not
    taken, a text extraction call fails, and when, the texts extracted, a
    positional keyword of the list has a number that does not parse or that
    is above the number of lines of either text. *)
Theorem magic_main_reports_failures :
  let out :=
    (magic_main rd [old; latest] keywords vendor_code keyword_mapping log).2 in
  let error_row :=
    [CStr old; CStr latest; CStr (replace pdf_server "" (old +:+ latest));
     CStr "Error in reading"] in
  (∃ row, out = Ok row)
  ∧ (∀ e,
       (magic_body rd [old; latest] keywords vendor_code keyword_mapping log).2
       = Raise e → out = Ok error_row)
  ∧ (¬ is_ok (count_of_pages rd old) ∨ ¬ is_ok (count_of_pages rd latest) →
     out = Ok error_row)
  ∧ (∀ n1 n2,
       count_of_pages rd old = Ok n1 → count_of_pages rd latest = Ok n2 →
       n1 <= page_limit → n2 <= page_limit →
       (¬ is_ok (fitz_extract_all_words rd old)
        ∨ ¬ is_ok (fitz_extract_all_words rd latest) → out = Ok error_row)
       ∧ (∀ lines1 lines2 keyword,
            fitz_extract_all_words rd old = Ok lines1 →
            fitz_extract_all_words rd latest = Ok lines2 →
            keyword ∈ keywords →
            bad_positional keyword (text_of lines1)
            ∨ bad_positional keyword (text_of lines2) →
            out = Ok error_row)).
Proof.
  intros out error_row. subst out.
  assert (∀ e, evaluation rd old latest keywords vendor_code keyword_mapping
               = Raise e →
          (magic_main rd [old; latest] keywords vendor_code keyword_mapping log).2
          = Ok error_row) as Herr.
  { intros e He. by rewrite magic_main_result, He. }
  split_and!.
  - rewrite magic_main_result. destruct (evaluation _ _ _ _ _ _); eauto.
  - intros e He. apply (Herr e). by rewrite <-(magic_body_result _ _ _ _ _ _ log).
  - intros Hbad. unfold evaluation in Herr.
    destruct (count_of_pages rd old) as [n1|e1]; [|by apply (Herr e1)].
    destruct (count_of_pages rd latest) as [n2|e2]; [|by apply (Herr e2)].
    cbn in Hbad. tauto.
  - intros n1 n2 Hc1 Hc2 Hn1 Hn2. split.
    + intros Hbad. unfold evaluation in Herr. rewrite Hc1, Hc2 in Herr.
      cbn [mbind result_bind] in Herr.
      rewrite (guard_not_taken _ _ Hn1 Hn2) in Herr.
      destruct (fitz_extract_all_words rd old) as [l1|e1]; [|by apply (Herr e1)].
      destruct (fitz_extract_all_words rd latest) as [l2|e2];
        [|by apply (Herr e2)].
      cbn in Hbad. tauto.
    + intros lines1 lines2 keyword He1 He2 Hin Hbad.
      destruct (evaluation_raises_on_keyword rd keywords vendor_code
                  keyword_mapping old latest n1 n2 lines1 lines2 keyword)
        as [e He]; try done.
      by apply (Herr e).
Qed.

End pair_evaluator_claims.

Lemma normal_row_change_flag_witness :
  (magic_main demo_reader ["a.pdf"; "b.pdf"] ["Voltage"; "current"] "V1"
     [["voltage"; " Supply Voltage "]] []).2
  = Ok [CStr "a.pdf"; CStr "b.pdf"; CStr "a.pdfb.pdf"; CStr "V1"; CStr "22";
        CStr "23"; CStr "Yes"; CStr "Voltage"; CStr "supply voltage";
        CStr "voltage: 5v"; CStr "voltage: 3v"; CBool false;
        CStr "current 1a"; CStr "current  1a"; CBool true].
Proof.
  refine (eq_trans (proj1 (normal_row_change_flag demo_reader
            ["Voltage"; "current"] "V1" [["voltage"; " Supply Voltage "]]
            "a.pdf" "b.pdf" []
            2 2 ["Voltage: 5V"; "Current 1A"] ["Voltage: 3V"; "Current  1A"]
            demo_matches_1 demo_matches_2 _ _ _ _ _ _ _ _ _)) _).
  - reflexivity.
  - reflexivity.
  - unfold page_limit. lia.
  - unfold page_limit. lia.
  - reflexivity.
  - reflexivity.
  - vm_compute. reflexivity.
  - vm_compute. reflexivity.
  - by repeat constructor.
  - vm_compute. reflexivity.
Defined.

(** C1, the claim as stated, fails: the changed keywords are listed in the
    order of the keyword list, which need not be sorted. *)
Lemma changed_keywords_in_list_order :
  (magic_main swap_reader ["old.pdf"; "new.pdf"] ["b"; "a"] "V" [] []).2
  = Ok [CStr "old.pdf"; CStr "new.pdf"; CStr "old.pdfnew.pdf"; CStr "V";
        CStr "7"; CStr "7"; CStr "Yes"; CStr (join ", " ["b"; "a"]);
        CStr "a, b"; CStr "b 1"; CStr "b 2"; CBool false;
        CStr "a 1"; CStr "a 2"; CBool false]
  ∧ ¬ Sorted String.le ["b"; "a"].
Proof.
  split; [vm_compute; reflexivity|].
  intros Hs. apply Sorted_inv in Hs as [_ Hhd]. apply HdRel_inv in Hhd.
  vm_compute in Hhd. exact Hhd.
Qed.

Lemma page_limit_short_circuit_witness :
  magic_main demo_reader ["big.pdf"; "a.pdf"] ["voltage"] "V1" [] []
  = ([PageCount "big.pdf"; PageCount "a.pdf"],
     Ok [CStr "big.pdf"; CStr "a.pdf"; CStr "big.pdfa.pdf";
         CStr "Page limit exceeded"]).
Proof.
  refine (proj1 (page_limit_short_circuit demo_reader ["voltage"] "V1" []
            "big.pdf" "a.pdf" [] 250 2 _ _ _)).
  - reflexivity.
  - reflexivity.
  - left. lia.
Defined.

Lemma magic_main_reports_failures_witness :
  (magic_main demo_reader ["gone.pdf"; "a.pdf"] ["voltage"] "V1" [] []).2
  = Ok [CStr "gone.pdf"; CStr "a.pdf"; CStr "gone.pdfa.pdf";
        CStr "Error in reading"].
Proof.
  refine (proj1 (proj2 (proj2 (magic_main_reports_failures demo_reader
            ["voltage"] "V1" [] "gone.pdf" "a.pdf" []))) _).
  left. intros [].
Defined.

(** ** Claims about the feature mapper *)

Lemma feature_of_miss (keyword_mapping : list (list string)) (keyword : string) :
  Forall (other_key keyword) keyword_mapping →
  feature_of keyword_mapping keyword = strip (lower keyword).
Proof.
  intros Hmiss. unfold feature_of.
  by rewrite (proj2 (list_find_None _ keyword_mapping) Hmiss).
Qed.

Lemma feature_of_hit (pre post : list (list string)) (row : list string)
    (keyword : string) :
  Forall (other_key keyword) pre →
  strip (lower keyword) = strip (lower (row_key row)) →
  feature_of (pre ++ row :: post) keyword = strip (lower (row_feature row)).
Proof.
  intros Hpre Hrow. unfold feature_of.
  assert (list_find (fun r => strip (lower keyword) = strip (lower (row_key r)))
            (pre ++ row :: post) = Some (length pre, row)) as ->; [|done].
  apply list_find_Some. split_and!.
  - by rewrite list_lookup_middle.
  - done.
  - intros j other Hj Hlt. rewrite lookup_app_l in Hj by done.
    by apply (Forall_lookup_1 _ _ _ _ Hpre Hj).
Qed.

(** C6: the mapped features of a row are the features of the changed
    keywords and nothing else, without repetition and in lexicographic
    order. The feature of a changed keyword is the stripped, lowercased
    feature of the first table row whose stripped, lowercased keyword equals
    the stripped, lowercased changed keyword, and the stripped, lowercased
    changed keyword itself when the table has no such row. *)
Theorem feature_mapper_output (m1 m2 : gmap string (list string))
    (keywords : list string) (keyword_mapping : list (list string)) :
  well_formed_table keyword_mapping →
  has_entries m1 keywords → has_entries m2 keywords →
  ∃ mapped,
    compare_and_mapping m1 m2 keywords keyword_mapping =
      Ok (CStr (change_flag (changed_of m1 m2 keywords))
          :: CStr (join ", " (changed_of m1 m2 keywords))
          :: CStr (join ", " mapped)
          :: (keywords ≫= triple_of m1 m2))
    ∧ Sorted String.le mapped ∧ NoDup mapped
    ∧ (∀ f, f ∈ mapped ↔
         ∃ keyword, keyword ∈ changed_of m1 m2 keywords
                    ∧ f = feature_of keyword_mapping keyword)
    ∧ (∀ changed_list mapped0,
         map_changed changed_list keyword_mapping mapped0 =
           Ok (mapped0 ++ (feature_of keyword_mapping <$> changed_list)))
    ∧ (∀ keyword, Forall (other_key keyword) keyword_mapping →
         feature_of keyword_mapping keyword = strip (lower keyword))
    ∧ (∀ keyword pre row post,
         keyword_mapping = pre ++ row :: post →
         Forall (other_key keyword) pre →
         strip (lower keyword) = strip (lower (row_key row)) →
         feature_of keyword_mapping keyword = strip (lower (row_feature row))).
Proof.
  intros Hwf H1 H2.
  exists (dedup_sort (feature_of keyword_mapping <$> changed_of m1 m2 keywords)).
  destruct (dedup_sort_spec
              (feature_of keyword_mapping <$> changed_of m1 m2 keywords))
    as (Hsorted & Hnodup & Helem).
  split_and!; [|done|done| | | |].
  - by apply compare_and_mapping_spec.
  - intros f. rewrite Helem, list_elem_of_fmap.
    split; [intros (cf & -> & Hcf) | intros (cf & Hcf & ->)]; eauto.
  - intros changed_list mapped0. by apply map_changed_feature_of.
  - apply feature_of_miss.
  - intros keyword pre row post ->. apply feature_of_hit.
Qed.

Lemma feature_mapper_output_witness :
  ∃ mapped,
    compare_and_mapping demo_matches_1 demo_matches_2 ["Voltage"; "current"]
      [["voltage"; " Supply Voltage "]] =
      Ok (CStr "Yes" :: CStr "Voltage" :: CStr (join ", " mapped)
          :: [CStr "voltage: 5v"; CStr "voltage: 3v"; CBool false;
              CStr "current 1a"; CStr "current  1a"; CBool true])
    ∧ Sorted String.le mapped ∧ NoDup mapped.
Proof.
  destruct (feature_mapper_output demo_matches_1 demo_matches_2
              ["Voltage"; "current"] [["voltage"; " Supply Voltage "]])
    as (mapped & Hrun & Hsorted & Hnodup & _).
  - by repeat constructor.
  - intros keyword Hin. apply (bool_decide_unpack _).
    apply elem_of_cons in Hin as [->|Hin]; [by vm_compute|].
    apply list_elem_of_singleton in Hin as ->. by vm_compute.
  - intros keyword Hin. apply (bool_decide_unpack _).
    apply elem_of_cons in Hin as [->|Hin]; [by vm_compute|].
    apply list_elem_of_singleton in Hin as ->. by vm_compute.
  - exists mapped. split_and!; [|done..]. rewrite Hrun. reflexivity.
Defined.

(** ** Claims about the batch loop *)

Lemma drain_app {B} (rs1 rs2 : list (result B)) (acc : list B) :
  drain (rs1 ++ rs2) acc = acc' ← drain rs1 acc; drain rs2 acc'.
Proof.
  revert acc. induction rs1 as [|r rs1 IH]; intros acc; [done|].
  cbn [app drain]. destruct r as [row|e]; [|done]. cbn [mbind result_bind].
  apply IH.
Qed.

Lemma drain_all_ok {A B} (f : A → result B) (g : A → B) (l : list A)
    (acc : list B) :
  (∀ x, x ∈ l → f x = Ok (g x)) →
  drain (map f l) acc = Ok (acc ++ (g <$> l)).
Proof.
  revert acc. induction l as [|x l IH]; intros acc Hok.
  - by rewrite app_nil_r.
  - cbn [map drain]. rewrite (Hok x) by left. cbn [mbind result_bind].
    rewrite IH by (intros y Hy; apply Hok; by right).
    by rewrite fmap_cons, <-app_assoc.
Qed.

(** The chunks of the loop, drained one after the other, are the whole list
    drained once. *)
Lemma batch_loop_range {A B} (f : A → result B) (count : nat) (l : list A) :
  (0 < count)%nat →
  ∀ fuel start acc, (length l - start ≤ fuel)%nat →
    batch_loop f count (range_from fuel start (length l) count) l acc
    = drain (map f (drop start l)) acc.
Proof.
  intros Hcount. induction fuel as [|fuel IH]; intros start acc Hfuel.
  - cbn [range_from batch_loop]. by rewrite drop_ge by lia.
  - cbn [range_from]. destruct (start <? length l)%nat eqn:Hlt.
    + cbn [batch_loop]. unfold executor_map, slice.
      replace (start + count - start)%nat with count by lia.
      rewrite <-(take_drop count (drop start l)) at 2.
      rewrite map_app, drain_app.
      destruct (drain (map f (take count (drop start l))) acc) as [acc'|e];
        [|done].
      cbn [mbind result_bind]. rewrite IH by lia. by rewrite drop_drop.
    + apply Nat.ltb_ge in Hlt. cbn [batch_loop]. by rewrite drop_ge by lia.
Qed.

Lemma worker_pair (rd : reader) (keywords : list string) (vendor_code : string)
    (keyword_mapping : list (list string)) (pair : string * string) :
  worker rd keywords vendor_code keyword_mapping (pair_links pair)
  = Ok (row_of rd keywords vendor_code keyword_mapping pair).
Proof.
  unfold worker, pair_links, row_of. rewrite magic_main_result.
  by destruct (evaluation _ _ _ _ _ _).
Qed.

Lemma run_batches_pairs (rd : reader) (keywords : list string)
    (vendor_code : string) (keyword_mapping : list (list string))
    (pairs : list (string * string)) :
  run_batches rd keywords vendor_code keyword_mapping (pair_links <$> pairs)
  = Ok (row_of rd keywords vendor_code keyword_mapping <$> pairs).
Proof.
  unfold run_batches, py_range.
  rewrite batch_loop_range by (unfold one_time_count; lia).
  rewrite drop_0.
  rewrite (drain_all_ok _
             (fun links => row_of rd keywords vendor_code keyword_mapping
                             (default "" (head links), default "" (last links)))).
  - by rewrite <-list_fmap_compose.
  - intros links (pair & -> & _)%list_elem_of_fmap. by rewrite worker_pair.
Qed.

(** On pairs of strings, the batch loop returns one row per document pair:
    the list of rows has the length of the list of pairs, and its row of
    index [i] is the row the pair evaluator returns for the pair of index
    [i] (for a sheet with an empty cell, see [magic_main_cells_nan]). *)
Theorem batch_loop_position_preserving (rd : reader) (keywords : list string)
    (vendor_code : string) (keyword_mapping : list (list string))
    (pairs : list (string * string)) :
  let links_list := pair_links <$> pairs in
  ∃ rows,
    run_batches rd keywords vendor_code keyword_mapping links_list = Ok rows
    ∧ length rows = length links_list
    ∧ (∀ i links, links_list !! i = Some links →
         ∃ row, rows !! i = Some row
                ∧ worker rd keywords vendor_code keyword_mapping links = Ok row)
    ∧ (∀ i row, rows !! i = Some row →
         ∃ links, links_list !! i = Some links
                  ∧ worker rd keywords vendor_code keyword_mapping links = Ok row).
Proof.
  intros links_list.
  exists (row_of rd keywords vendor_code keyword_mapping <$> pairs).
  split_and!.
  - apply run_batches_pairs.
  - unfold links_list. by rewrite !length_fmap.
  - intros i links. unfold links_list. rewrite !list_lookup_fmap.
    destruct (pairs !! i) as [pair|]; [|done]. intros [= <-].
    eexists. split; [done|]. apply worker_pair.
  - intros i row. unfold links_list. rewrite !list_lookup_fmap.
    destruct (pairs !! i) as [pair|]; [|done]. intros [= <-].
    eexists. split; [done|]. apply worker_pair.
Qed.

(** * Further properties of the program *)

(** ** Stripping and lowercasing *)

Lemma starts_with_space_lstrip (s : string) : starts_with_space (lstrip s) = false.
Proof.
  induction s as [|c s IH]; [done|]. cbn [lstrip].
  destruct (isspace c) eqn:Hc; [done|]. cbn. by rewrite Hc.
Qed.

Lemma lstrip_id (s : string) : starts_with_space s = false → lstrip s = s.
Proof. destruct s as [|c s]; [done|]. cbn. by intros ->. Qed.

Lemma rstrip_head (s : string) (c : ascii) (r : string) :
  rstrip s = String c r → ∃ r', s = String c r'.
Proof.
  destruct s as [|d s]; [done|]. cbn [rstrip].
  destruct (rstrip s), (isspace d); intros [= <- _]; eauto.
Qed.

Lemma starts_with_space_rstrip (s : string) :
  starts_with_space s = false → starts_with_space (rstrip s) = false.
Proof.
  intros Hs. destruct (rstrip s) as [|c r] eqn:Hr; [done|].
  apply rstrip_head in Hr as [r' ->]. exact Hs.
Qed.

Lemma rstrip_idemp (s : string) : rstrip (rstrip s) = rstrip s.
Proof.
  induction s as [|c s IH]; [done|]. cbn [rstrip].
  destruct (rstrip s) as [|d r] eqn:Hr.
  - destruct (isspace c) eqn:Hc; [done|]. cbn. by rewrite Hc.
  - cbn [rstrip]. cbn [rstrip] in IH. by rewrite IH.
Qed.

Lemma strip_idemp (s : string) : strip (strip s) = strip s.
Proof.
  unfold strip. rewrite (lstrip_id (rstrip (lstrip s))).
  - apply rstrip_idemp.
  - apply starts_with_space_rstrip, starts_with_space_lstrip.
Qed.

Lemma isspace_lower_char (c : ascii) : isspace (lower_char c) = isspace c.
Proof. destruct c as [[] [] [] [] [] [] [] []]; vm_compute; reflexivity. Qed.

Lemma lower_char_idemp (c : ascii) : lower_char (lower_char c) = lower_char c.
Proof. destruct c as [[] [] [] [] [] [] [] []]; vm_compute; reflexivity. Qed.

Lemma lower_char_space (c : ascii) :
  Ascii.eqb (lower_char c) space = Ascii.eqb c space.
Proof. destruct c as [[] [] [] [] [] [] [] []]; vm_compute; reflexivity. Qed.

Lemma lower_idemp (s : string) : lower (lower s) = lower s.
Proof.
  induction s as [|c s IH]; [done|]. cbn. by rewrite lower_char_idemp, IH.
Qed.

Lemma lower_lstrip (s : string) : lstrip (lower s) = lower (lstrip s).
Proof.
  induction s as [|c s IH]; [done|]. cbn [lower lstrip].
  rewrite isspace_lower_char. by destruct (isspace c).
Qed.

Lemma lower_rstrip (s : string) : rstrip (lower s) = lower (rstrip s).
Proof.
  induction s as [|c s IH]; [done|]. cbn [lower rstrip].
  rewrite IH, isspace_lower_char.
  by destruct (rstrip s), (isspace c).
Qed.

Lemma lower_strip (s : string) : strip (lower s) = lower (strip s).
Proof. unfold strip. by rewrite lower_lstrip, lower_rstrip. Qed.

Lemma starts_with_space_lower (s : string) :
  starts_with_space (lower s) = starts_with_space s.
Proof. destruct s as [|c s]; [done|]. apply isspace_lower_char. Qed.

Lemma single_spaced_lower (s : string) : single_spaced (lower s) = single_spaced s.
Proof.
  induction s as [|c s IH]; [done|]. cbn [lower single_spaced].
  by rewrite isspace_lower_char, lower_char_space, starts_with_space_lower, IH.
Qed.

Lemma single_spaced_tail (c : ascii) (s : string) :
  single_spaced (String c s) = true → single_spaced s = true.
Proof. cbn [single_spaced]. by intros [_ ?]%andb_true_iff. Qed.

Lemma single_spaced_lstrip (s : string) :
  single_spaced s = true → single_spaced (lstrip s) = true.
Proof.
  induction s as [|c s IH]; [done|]. intros Hs. cbn [lstrip].
  destruct (isspace c); [|done]. by apply IH, (single_spaced_tail c).
Qed.

Lemma single_spaced_rstrip (s : string) :
  single_spaced s = true → single_spaced (rstrip s) = true.
Proof.
  induction s as [|c s IH]; [done|]. cbn [single_spaced rstrip].
  intros [Hc Hs]%andb_true_iff. specialize (IH Hs).
  destruct (rstrip s) as [|d r] eqn:Hr.
  - destruct (isspace c) eqn:Hsp; [done|]. cbn. by rewrite Hsp.
  - cbn [single_spaced]. cbn [single_spaced] in IH. rewrite IH, andb_true_r.
    apply rstrip_head in Hr as [r' ->]. exact Hc.
Qed.

Lemma single_spaced_strip (s : string) :
  single_spaced s = true → single_spaced (strip s) = true.
Proof. intros Hs. by apply single_spaced_rstrip, single_spaced_lstrip. Qed.

Lemma single_spaced_plain (s : string) : single_spaced s = true → plain s = true.
Proof.
  unfold plain. induction s as [|c s IH]; [done|]. cbn [single_spaced all_chars].
  intros [Hc Hs]%andb_true_iff. rewrite (IH Hs), andb_true_r.
  destruct (isspace c); [|done]. by apply andb_true_iff in Hc as [-> _].
Qed.

Lemma plain_no_newline (s : string) : plain s = true → no_newline s = true.
Proof.
  unfold plain, no_newline. induction s as [|c s IH]; [done|]. cbn [all_chars].
  intros [Hc Hs]%andb_true_iff. rewrite (IH Hs), andb_true_r.
  destruct (Ascii.eqb_spec c newline) as [->|]; [|done]. by vm_compute in Hc.
Qed.

(** ** Text extraction *)

Lemma starts_with_space_sub_whitespace (s : string) :
  starts_with_space (sub_whitespace true s) = false.
Proof.
  induction s as [|c s IH]; [done|]. cbn [sub_whitespace].
  destruct (isspace c) eqn:Hc; [done|]. cbn. by rewrite Hc.
Qed.

Lemma single_spaced_sub_whitespace (in_run : bool) (s : string) :
  single_spaced (sub_whitespace in_run s) = true.
Proof.
  revert in_run. induction s as [|c s IH]; intros in_run; [done|].
  cbn [sub_whitespace]. destruct (isspace c) eqn:Hc.
  - destruct in_run; [done|]. cbn [single_spaced].
    change (isspace space) with true. cbn match.
    by rewrite starts_with_space_sub_whitespace, IH.
  - cbn [single_spaced]. by rewrite Hc, IH.
Qed.

Lemma page_lines_filter (blocks all_text : list string) :
  page_lines blocks all_text = all_text ++ filter kept (block_line <$> blocks).
Proof.
  revert all_text. induction blocks as [|line blocks IH]; intros all_text.
  - by rewrite app_nil_r.
  - cbn [page_lines]. rewrite fmap_cons, filter_cons.
    destruct (decide (kept (block_line line))) as [[Hi He]|Hk].
    + rewrite Hi, bool_decide_eq_false_2 by done. cbn [orb].
      by rewrite IH, <-app_assoc.
    + rewrite IH.
      destruct (contains "<image:" (block_line line)) eqn:Hi; [done|].
      rewrite bool_decide_eq_true_2; [done|].
      destruct (decide (block_line line = "")); [done|]. by destruct Hk.
Qed.

Lemma doc_lines_filter (doc : list (list string)) (all_text : list string) :
  doc_lines doc all_text = all_text ++ filter kept (block_line <$> mjoin doc).
Proof.
  revert all_text. induction doc as [|page doc IH]; intros all_text.
  - by rewrite app_nil_r.
  - cbn [doc_lines]. rewrite IH, page_lines_filter.
    cbn [mjoin list_join]. by rewrite fmap_app, filter_app, <-app_assoc.
Qed.

(** X1: [fitz_extract_all_words] returns, in the order of the document, the
    normalised texts of the blocks that are neither empty nor image
    placeholders. Every line it returns is non-empty, has no whitespace at
    either end, has no whitespace but single space characters, and does not
    contain ["<image:"]. *)
Theorem fitz_extract_all_words_clean (doc : list (list string)) :
  fitz_extract_all_words_on doc = filter kept (block_line <$> mjoin doc)
  ∧ Forall clean_line (fitz_extract_all_words_on doc).
Proof.
  unfold fitz_extract_all_words_on. rewrite doc_lines_filter, app_nil_l.
  split; [done|]. apply Forall_forall. intros line Hin.
  apply list_elem_of_filter in Hin as [[Hi He] Hin].
  apply list_elem_of_fmap in Hin as (block & -> & _).
  split_and!; [done| |  |done].
  - unfold block_line. apply strip_idemp.
  - unfold block_line. apply single_spaced_strip, single_spaced_sub_whitespace.
Qed.

(** ** From the extracted lines to the text and back *)

Lemma split_no_newline (s : string) :
  no_newline s = true → split newline s = [s].
Proof.
  unfold no_newline. induction s as [|c s IH]; [done|]. cbn [all_chars split].
  intros [Hc Hs]%andb_true_iff. apply negb_true_iff in Hc as ->.
  by rewrite (IH Hs).
Qed.

Lemma split_app_newline (s t : string) :
  no_newline s = true →
  split newline (s +:+ String newline t) = s :: split newline t.
Proof.
  unfold no_newline. induction s as [|c s IH]; [done|].
  rewrite append_cons. cbn [all_chars split].
  intros [Hc Hs]%andb_true_iff. apply negb_true_iff in Hc as ->.
  by rewrite (IH Hs).
Qed.

Lemma split_join (lines : list string) :
  Forall (fun line => no_newline line = true) lines → lines ≠ [] →
  split newline (join (String newline "") lines) = lines.
Proof.
  induction lines as [|line lines IH]; [done|]. intros Hall _.
  apply Forall_cons in Hall as [Hline Hall].
  destruct lines as [|line' lines].
  - by apply split_no_newline.
  - change (join (String newline "") (line :: line' :: lines))
      with (line +:+ String newline (join (String newline "") (line' :: lines))).
    rewrite split_app_newline by done. by rewrite IH.
Qed.

Lemma clean_lines_lower (lines : list string) :
  Forall clean_line lines →
  Forall (fun line => single_spaced line = true ∧ strip line = line)
    (lower <$> lines).
Proof.
  intros Hall. apply Forall_fmap. eapply Forall_impl; [exact Hall|].
  intros line (_ & Hs & Hsp & _). cbn. split.
  - by rewrite single_spaced_lower.
  - by rewrite lower_strip, Hs.
Qed.

Lemma split_text_of (lines : list string) :
  Forall clean_line lines → lines ≠ [] →
  split newline (text_of lines) = lower <$> lines.
Proof.
  intros Hall Hne. unfold text_of. apply split_join.
  - eapply Forall_impl; [exact (clean_lines_lower _ Hall)|].
    intros line [Hsp _]. by apply plain_no_newline, single_spaced_plain.
  - by destruct lines.
Qed.

(** X2: the text that [magic_main] builds from the lines of
    [fitz_extract_all_words] splits back into these lines, lowercased: the
    text of a document with at least one kept block has one line per kept
    block, and the text of a document with none is the empty string, which
    splits into one empty line. A positional keyword of number [i + 1]
    therefore selects the kept block of index [i], lowercased. *)
Theorem text_lines_are_blocks (doc : list (list string)) :
  let lines := fitz_extract_all_words_on doc in
  (lines ≠ [] → split newline (text_of lines) = lower <$> lines)
  ∧ (lines = [] → text_of lines = "" ∧ split newline (text_of lines) = [""])
  ∧ (∀ keyword i line,
       positional keyword →
       int (removeprefix "_" keyword) = Ok (Z.of_nat i + 1) →
       lines !! i = Some line →
       keyword_matches keyword (text_of lines) = Ok [lower line]).
Proof.
  intros lines.
  destruct (fitz_extract_all_words_clean doc) as [_ Hclean]. fold lines in Hclean.
  split_and!.
  - intros Hne. by apply split_text_of.
  - by intros ->.
  - intros keyword i line Hpos Hint Hline.
    rewrite (keyword_matches_positional _ _ _ Hpos Hint).
    rewrite split_text_of; [|done|by intros Hnil; rewrite Hnil in Hline].
    replace (Z.of_nat i + 1 - 1) with (Z.of_nat i) by lia.
    rewrite (py_index_in_range _ i (lower line)); [done|].
    by rewrite list_lookup_fmap, Hline.
Qed.

Lemma text_lines_are_blocks_witness :
  keyword_matches "_2"
    (text_of (fitz_extract_all_words_on [["Vcc  5V"; "<image: 3>"]; [" Icc 1A "]]))
  = Ok ["icc 1a"].
Proof.
  refine (proj2 (proj2 (text_lines_are_blocks
            [["Vcc  5V"; "<image: 3>"]; [" Icc 1A "]])) "_2" 1%nat "Icc 1A" _ _ _);
    reflexivity.
Defined.

(** ** Whitespace in the pipeline *)

Lemma without_spaces_plain (s : string) :
  plain s = true → without_spaces s = without_whitespace s.
Proof.
  unfold plain. induction s as [|c s IH]; [done|].
  cbn [all_chars without_spaces without_whitespace].
  intros [Hc Hs]%andb_true_iff. rewrite (IH Hs).
  destruct (isspace c) eqn:Hsp.
  - cbn in Hc. by rewrite Hc.
  - destruct (Ascii.eqb_spec c space) as [->|]; [|done]. by vm_compute in Hsp.
Qed.

(** X3: on lists whose elements have no whitespace but space characters,
    [compare] ignores all whitespace: it holds exactly when the lists, with
    every whitespace character taken out of every element and sorted, are
    equal. *)
Theorem compare_whitespace_insensitive_on_plain (a b : list string) :
  Forall (fun x => plain x = true) a → Forall (fun x => plain x = true) b →
  (compare a b = true ↔
     sort (without_whitespace <$> a) = sort (without_whitespace <$> b)).
Proof.
  intros Ha Hb. rewrite compare_true_iff, sort_eq_iff.
  assert (∀ l, Forall (fun x => plain x = true) l →
               without_spaces <$> l = without_whitespace <$> l) as Heq.
  { intros l Hl. apply list_fmap_ext. intros i x Hx.
    apply without_spaces_plain. by apply (Forall_lookup_1 _ _ _ _ Hl Hx). }
  by rewrite (Heq a Ha), (Heq b Hb).
Qed.

Lemma compare_whitespace_insensitive_on_plain_witness :
  compare ["a b"; "c"] ["c"; "ab"] = true ↔
  sort (without_whitespace <$> ["a b"; "c"]) = sort (without_whitespace <$> ["c"; "ab"]).
Proof.
  apply compare_whitespace_insensitive_on_plain; by repeat constructor.
Defined.

Lemma elem_of_appended (key text : string) (keywords : list string) (x : string) :
  x ∈ appended key text keywords →
  ∃ keyword, keyword ∈ keywords ∧ x ∈ matches_of text keyword.
Proof.
  induction keywords as [|k keywords IH]; cbn [appended].
  { by intros ?%elem_of_nil. }
  rewrite elem_of_app. intros [Hx|Hx].
  - exists k. split; [by left|]. unfold matches_of.
    case_decide; [done | by apply elem_of_nil in Hx].
  - destruct (IH Hx) as (keyword & Hin & Hm). exists keyword. split; [by right | done].
Qed.

Lemma elem_of_matching_lines (keyword : string) (lines : list string) (x : string) :
  x ∈ matching_lines keyword lines → ∃ line, line ∈ lines ∧ x = strip line.
Proof.
  rewrite matching_lines_filter, list_elem_of_fmap.
  intros (line & -> & [_ Hin]%list_elem_of_filter). eauto.
Qed.

Lemma py_index_elem_of {A} (l : list A) (i : Z) (x : A) :
  py_index l i = Ok x → x ∈ l.
Proof.
  unfold py_index. destruct (_ && _); [|done].
  destruct (l !! _) as [y|] eqn:Hy; [|done]. intros [= <-].
  by eapply list_elem_of_lookup_2.
Qed.

(** The matches of a keyword are lines of the text, stripped or not, or the
    placeholder. *)
Lemma elem_of_matches_of (text keyword x : string) :
  x ∈ matches_of text keyword →
  x = "" ∨ ∃ line, line ∈ split newline text ∧ (x = line ∨ x = strip line).
Proof.
  unfold matches_of, keyword_matches.
  destruct (startswith "_" keyword).
  - destruct (int _) as [n|]; cbn; [|by intros ?%elem_of_nil].
    destruct (py_index _ _) as [line|] eqn:Hline; cbn; [|by intros ?%elem_of_nil].
    intros ->%list_elem_of_singleton. right. exists line.
    split; [by eapply py_index_elem_of | by left].
  - cbn. case_decide.
    + intros ->%list_elem_of_singleton. by left.
    + intros (line & Hin & ->)%elem_of_matching_lines. right. eauto.
Qed.

(** X4: in the pipeline of [magic_main] every matched line is clean: when
    the text comes from the lines of [fitz_extract_all_words], every element
    of every entry of the match set is stripped and has no whitespace but
    single space characters, so that [compare] on two such entries ignores
    all whitespace. *)
Theorem pipeline_entries_single_spaced (doc : list (list string))
    (keywords : list string) (m : gmap string (list string)) :
  search_for_words keywords (text_of (fitz_extract_all_words_on doc)) = Ok m →
  ∀ key entry, m !! key = Some entry →
    Forall (fun x => single_spaced x = true ∧ strip x = x ∧ plain x = true) entry.
Proof.
  intros Hm key entry Hentry.
  rewrite (search_for_words_lookup _ _ _ _ Hm) in Hentry.
  case_decide; [|done]. injection Hentry as <-.
  apply Forall_forall. intros x Hx.
  enough (single_spaced x = true ∧ strip x = x) as [Hsp Hst].
  { split_and!; [done..|]. by apply single_spaced_plain. }
  apply elem_of_appended in Hx as (keyword & _ & Hx).
  apply elem_of_matches_of in Hx as [->|(line & Hline & Hx)]; [done|].
  assert (single_spaced line = true ∧ strip line = line) as [Hsp Hst].
  { destruct (fitz_extract_all_words_clean doc) as [_ Hclean].
    destruct (decide (fitz_extract_all_words_on doc = [])) as [Hnil|Hne].
    - rewrite Hnil in Hline. by apply list_elem_of_singleton in Hline as ->.
    - rewrite split_text_of in Hline by done.
      by apply (proj1 (Forall_forall _ _) (clean_lines_lower _ Hclean)). }
  destruct Hx as [->| ->]; [done|]. by rewrite Hst.
Qed.

Lemma pipeline_entries_single_spaced_witness :
  Forall (fun x => single_spaced x = true ∧ strip x = x ∧ plain x = true)
    ["vcc 5v"].
Proof.
  refine (pipeline_entries_single_spaced [["Vcc  5V"; "<image: 3>"]; [" Icc 1A "]]
            ["vcc"] {[ "vcc" := ["vcc 5v"] ]} _ "vcc" ["vcc 5v"] _).
  - vm_compute. reflexivity.
  - vm_compute. reflexivity.
Defined.

(** ** More on the keyword matcher *)

Lemma appended_bind (key text : string) (keywords : list string) :
  appended key text keywords =
    filter (fun keyword => strip keyword = key) keywords ≫= matches_of text.
Proof.
  induction keywords as [|k keywords IH]; [done|].
  cbn [appended]. rewrite filter_cons, IH. unfold matches_of at 2.
  case_decide; [by rewrite bind_cons | done].
Qed.

(** X5: the dictionary that [search_for_words] returns has the stripped
    keywords as its keys and no other key; the entry of a key is the
    concatenation, in the order of the keyword list, of the matches of every
    keyword whose stripped form is the key, so that a keyword listed several
    times has its matches as many times in its entry. *)
Theorem search_for_words_dictionary (keywords : list string) (text : string)
    (m : gmap string (list string)) :
  search_for_words keywords text = Ok m →
  dom m = list_to_set (strip <$> keywords)
  ∧ ∀ key, key ∈ strip <$> keywords →
      m !! key =
        Some (filter (fun keyword => strip keyword = key) keywords
                ≫= matches_of text).
Proof.
  intros Hm. split.
  - apply set_eq. intros key.
    rewrite elem_of_dom, elem_of_list_to_set, (search_for_words_lookup _ _ _ _ Hm).
    case_decide; [by split; eauto | split; [by intros [? ?] | done]].
  - intros key Hkey. rewrite (search_for_words_lookup _ _ _ _ Hm).
    by rewrite decide_True, appended_bind.
Qed.

Lemma search_for_words_dictionary_witness :
  dom ({[ "x" := ["x 1"; "x 1"] ]} : gmap string (list string))
  = list_to_set (strip <$> ["x"; " x "]).
Proof.
  refine (proj1 (search_for_words_dictionary ["x"; " x "] "x 1" _ _)).
  vm_compute. reflexivity.
Defined.

Lemma py_index_ok_iff {A} (l : list A) (i : Z) :
  is_ok (py_index l i) ↔ - Z.of_nat (length l) <= i < Z.of_nat (length l).
Proof.
  unfold py_index.
  destruct (i <? 0) eqn:Hneg; [apply Z.ltb_lt in Hneg | apply Z.ltb_ge in Hneg].
  - destruct ((0 <=? _) && (_ <? _)) eqn:Hr.
    + apply andb_true_iff in Hr as [H1%Z.leb_le H2%Z.ltb_lt].
      destruct (lookup_lt_is_Some_2 l (Z.to_nat (Z.of_nat (length l) + i)))
        as [x ->]; [lia|]. cbn. split; [lia | done].
    + cbn. split; [done|]. intros [H1 H2].
      apply andb_false_iff in Hr as [Hr%Z.leb_gt|Hr%Z.ltb_ge]; lia.
  - destruct ((0 <=? _) && (_ <? _)) eqn:Hr.
    + apply andb_true_iff in Hr as [H1%Z.leb_le H2%Z.ltb_lt].
      destruct (lookup_lt_is_Some_2 l (Z.to_nat i)) as [x ->]; [lia|].
      cbn. split; [lia | done].
    + cbn. split; [done|]. intros [H1 H2].
      apply andb_false_iff in Hr as [Hr%Z.leb_gt|Hr%Z.ltb_ge]; lia.
Qed.

Lemma py_index_raises {A} (l : list A) (i : Z) (e : exn) :
  py_index l i = Raise e → e = IndexError.
Proof.
  unfold py_index. destruct (_ && _); [|congruence].
  destruct (l !! _); congruence.
Qed.

Lemma int_raises (s : string) (e : exn) : int s = Raise e → e = ValueError.
Proof.
  unfold int. destruct (int_rstrip _) as [|c d]; cbn zeta.
  - destruct (parse_digits _ _ _ _) as [[v n]|]; [|congruence].
    destruct (n <=? _)%nat; congruence.
  - repeat (match goal with
            | |- context [match ?x with _ => _ end] => destruct x
            end; try congruence).
Qed.

Lemma py_index_from_end {A} (l : list A) (i : Z) (x : A) :
  - Z.of_nat (length l) <= i < 0 →
  l !! Z.to_nat (Z.of_nat (length l) + i) = Some x →
  py_index l i = Ok x.
Proof.
  intros Hi Hx. unfold py_index.
  rewrite (proj2 (Z.ltb_lt _ _)) by lia.
  rewrite (proj2 (Z.leb_le _ _)) by lia.
  rewrite (proj2 (Z.ltb_lt _ _)) by lia.
  cbn [andb]. by rewrite Hx.
Qed.

(** X6: a positional keyword of number [n] raises nothing exactly when
    [1 - len <= n <= len], where [len] is the number of lines of the text: a
    number from [1 - len] to 0 counts from the end and selects the line of
    index [len + n - 1]. A number outside this range raises [IndexError], and
    a number that does not parse raises [ValueError]. *)
Theorem positional_keyword_range (keyword text : string) :
  positional keyword →
  let len := Z.of_nat (length (split newline text)) in
  (∀ n, int (removeprefix "_" keyword) = Ok n →
     (is_ok (keyword_matches keyword text) ↔ 1 - len <= n <= len)
     ∧ (1 - len <= n <= 0 →
        ∃ line, split newline text !! Z.to_nat (len + n - 1) = Some line
                ∧ keyword_matches keyword text = Ok [line])
     ∧ (¬ (1 - len <= n <= len) →
        keyword_matches keyword text = Raise IndexError))
  ∧ (¬ is_ok (int (removeprefix "_" keyword)) →
     keyword_matches keyword text = Raise ValueError).
Proof.
  intros Hpos len. split.
  - intros n Hint. rewrite (keyword_matches_positional _ _ _ Hpos Hint).
    assert (is_ok (line ← py_index (split newline text) (n - 1); mret [line])
            ↔ 1 - len <= n <= len) as Hok.
    { transitivity (is_ok (py_index (split newline text) (n - 1))).
      - by destruct (py_index _ _).
      - rewrite py_index_ok_iff. unfold len. lia. }
    split_and!; [done| |].
    + intros Hn.
      destruct (lookup_lt_is_Some_2 (split newline text) (Z.to_nat (len + n - 1)))
        as [line Hline]; [unfold len in *; lia|].
      exists line. split; [done|].
      rewrite (py_index_from_end _ _ line); [done | unfold len in *; lia|].
      by replace (Z.of_nat (length (split newline text)) + (n - 1))
        with (len + n - 1) by (unfold len; lia).
    + intros Hn. destruct (py_index _ _) as [line|e] eqn:Hline.
      * exfalso. by apply Hn, Hok.
      * by apply py_index_raises in Hline as ->.
  - intros Hbad. unfold positional in Hpos. unfold keyword_matches.
    rewrite Hpos. destruct (int _) as [n|e] eqn:Hint; [by destruct Hbad|].
    by apply int_raises in Hint as ->.
Qed.

Lemma positional_keyword_range_witness :
  ∃ line,
    split newline ("a" +:+ String newline "b" +:+ String newline "c")
      !! Z.to_nat (3 + -1 - 1) = Some line
    ∧ keyword_matches "_-1" ("a" +:+ String newline "b" +:+ String newline "c")
      = Ok [line].
Proof.
  refine (proj1 (proj2 (proj1 (positional_keyword_range "_-1"
            ("a" +:+ String newline "b" +:+ String newline "c") _) (-1) _)) _).
  - reflexivity.
  - reflexivity.
  - split; vm_compute; discriminate.
Defined.

Lemma search_loop_first_failure (text keyword : string) (e : exn)
    (post : list string) :
  keyword_matches keyword text = Raise e →
  ∀ pre d, has_entries d (pre ++ keyword :: post) →
    Forall (fun k => is_ok (keyword_matches k text)) pre →
    search_loop (pre ++ keyword :: post) text d = Raise e.
Proof.
  intros Hk. induction pre as [|k pre IH]; intros d Hd Hpre.
  - cbn [app search_loop]. by rewrite Hk.
  - apply Forall_cons in Hpre as [Hok Hpre]. cbn [app search_loop].
    destruct (keyword_matches k text) as [ms|]; [|done]. cbn [mbind result_bind].
    destruct (Hd k) as [entry Hentry]; [by left|].
    unfold dict_get. rewrite Hentry. cbn [mbind result_bind].
    apply IH; [|done]. intros k' Hin.
    destruct (decide (strip k = strip k')) as [->|Hne].
    + rewrite lookup_insert_eq. eauto.
    + rewrite lookup_insert_ne by done. apply Hd. by right.
Qed.

(** X7: [search_for_words] returns exactly when every keyword of the list
    can be matched on the text, which substring keywords always can; when a
    keyword cannot, the exception is the one of the first such keyword. *)
Theorem search_for_words_returns_iff (keywords : list string) (text : string) :
  (is_ok (search_for_words keywords text) ↔
     Forall (fun keyword => is_ok (keyword_matches keyword text)) keywords)
  ∧ (∀ keyword, substring_keyword keyword → is_ok (keyword_matches keyword text))
  ∧ (∀ pre keyword post e,
       keywords = pre ++ keyword :: post →
       Forall (fun k => is_ok (keyword_matches k text)) pre →
       keyword_matches keyword text = Raise e →
       search_for_words keywords text = Raise e).
Proof.
  split_and!.
  - split.
    + intros Hok. apply Forall_forall. intros keyword Hin.
      destruct (keyword_matches keyword text) as [ms|e] eqn:Hk; [done|].
      destruct (search_for_words_raises keywords text keyword Hin) as [e' He'].
      * rewrite Hk. by intros [].
      * by rewrite He' in Hok.
    + intros Hall. by apply search_loop_returns, empty_matches_has_entries.
  - intros keyword Hsub. by rewrite (keyword_matches_substring _ _ Hsub).
  - intros pre keyword post e -> Hpre Hk.
    apply search_loop_first_failure; [done | apply empty_matches_has_entries | done].
Qed.

Lemma search_for_words_returns_iff_witness :
  search_for_words ["a"; "_x"; "_9"] "a" = Raise ValueError.
Proof.
  refine (proj2 (proj2 (search_for_words_returns_iff ["a"; "_x"; "_9"] "a"))
            ["a"] "_x" ["_9"] ValueError _ _ _).
  - reflexivity.
  - by repeat constructor.
  - reflexivity.
Defined.

(** ** More on the set comparator *)

(** X8: [compare] is transitive, so with its symmetry and reflexivity it is
    an equivalence; two lists that compare equal have the same number of
    elements, so repetitions count, and only the empty list compares equal
    to the empty list. *)
Theorem compare_transitive_and_counting :
  (∀ a b c, compare a b = true → compare b c = true → compare a c = true)
  ∧ (∀ a b, compare a b = true → length a = length b)
  ∧ (∀ a, compare a [] = true ↔ a = []).
Proof.
  split_and!.
  - intros a b c. rewrite !compare_true_iff. by intros -> ->.
  - intros a b. rewrite compare_true_iff. intros Hp.
    apply Permutation_length in Hp. by rewrite !length_fmap in Hp.
  - intros a. rewrite compare_true_iff. split.
    + intros Hp%Permutation_nil_r. by apply fmap_nil_inv in Hp.
    + by intros ->.
Qed.

Lemma compare_transitive_and_counting_witness :
  compare ["a b"; "c"] ["ab"; "c "] = true.
Proof.
  refine (proj1 compare_transitive_and_counting _ ["c"; "ab"] _ _ _);
    reflexivity.
Defined.

(** ** More on comparison, mapping and the pair evaluator *)

Lemma cm_loop_df_length (m1 m2 : gmap string (list string))
    (keyword_mapping : list (list string)) (keywords : list string) :
  ∀ st st', cm_loop m1 m2 keywords keyword_mapping st = Ok st' →
    length (df_list st') = (length (df_list st) + 3 * length keywords)%nat.
Proof.
  induction keywords as [|keyword keywords IH]; intros st st' Hrun.
  - injection Hrun as <-. cbn. lia.
  - cbn [cm_loop] in Hrun.
    apply bind_ok in Hrun as (e1 & _ & Hrun).
    apply bind_ok in Hrun as (e2 & _ & Hrun).
    apply bind_ok in Hrun as (mapped & _ & Hrun).
    rewrite (IH _ _ Hrun). cbn [df_list]. rewrite length_app. cbn. lia.
Qed.

Lemma compare_and_mapping_length (m1 m2 : gmap string (list string))
    (keywords : list string) (keyword_mapping : list (list string))
    (row : list cell) :
  compare_and_mapping m1 m2 keywords keyword_mapping = Ok row →
  length row = (3 + 3 * length keywords)%nat.
Proof.
  unfold compare_and_mapping. intros (st & Hrun & [= <-])%bind_ok.
  cbn [length]. by rewrite (cm_loop_df_length _ _ _ _ _ _ Hrun).
Qed.

Lemma header_length (keywords : list string) :
  length (header keywords) = (9 + 3 * length keywords)%nat.
Proof.
  unfold header. rewrite length_app. cbn [length]. f_equal.
  induction keywords as [|k keywords IH]; [done|].
  rewrite bind_cons, length_app, IH. cbn. lia.
Qed.

(** X9: every row that [magic_main] returns for a pair is either one of the
    two four-cell status rows or has exactly as many cells as the header of
    the report, nine and three for each keyword. *)
Theorem magic_main_row_width (rd : reader) (old latest : string)
    (keywords : list string) (vendor_code : string)
    (keyword_mapping : list (list string)) (log : list event) :
  ∃ row,
    (magic_main rd [old; latest] keywords vendor_code keyword_mapping log).2
    = Ok row
    ∧ (row = short_row old latest "Page limit exceeded"
       ∨ row = short_row old latest "Error in reading"
       ∨ length row = length (header keywords))
    ∧ length (header keywords) = (9 + 3 * length keywords)%nat.
Proof.
  rewrite magic_main_result, header_length. unfold evaluation.
  destruct (count_of_pages rd old) as [n1|]; [|by eauto 6].
  destruct (count_of_pages rd latest) as [n2|]; [|by eauto 6].
  cbn [mbind result_bind].
  destruct ((page_limit <? n2) || (page_limit <? n1)); [by eauto 6|].
  destruct (fitz_extract_all_words rd old) as [lines1|]; [|by eauto 6].
  destruct (fitz_extract_all_words rd latest) as [lines2|]; [|by eauto 6].
  cbn [mbind result_bind].
  destruct (search_for_words keywords (text_of lines1)) as [m1|]; [|by eauto 6].
  destruct (search_for_words keywords (text_of lines2)) as [m2|]; [|by eauto 6].
  cbn [mbind result_bind].
  destruct (compare_and_mapping m1 m2 keywords keyword_mapping) as [row|] eqn:Hrow;
    [|by eauto 6].
  cbn [mbind result_bind]. eexists. split; [done|]. split; [|done].
  right; right. cbn [length]. rewrite (compare_and_mapping_length _ _ _ _ _ Hrow).
  lia.
Qed.

Lemma dict_get_raises {V} (d : gmap string V) (key : string) (e : exn) :
  dict_get d key = Raise e → e = KeyError.
Proof. unfold dict_get. destruct (d !! key); congruence. Qed.

Lemma cm_loop_entries (m1 m2 : gmap string (list string))
    (keyword_mapping : list (list string)) (keywords : list string) :
  ∀ st st', cm_loop m1 m2 keywords keyword_mapping st = Ok st' →
    has_entries m1 keywords ∧ has_entries m2 keywords.
Proof.
  induction keywords as [|keyword keywords IH]; intros st st' Hrun.
  - split; by intros k ?%elem_of_nil.
  - cbn [cm_loop] in Hrun.
    apply bind_ok in Hrun as (e1 & H1 & Hrun).
    apply bind_ok in Hrun as (e2 & H2 & Hrun).
    apply bind_ok in Hrun as (mapped & _ & Hrun).
    destruct (IH _ _ Hrun) as [IH1 IH2].
    unfold dict_get in H1, H2.
    destruct (m1 !! strip keyword) eqn:Hm1; [|done].
    destruct (m2 !! strip keyword) eqn:Hm2; [|done].
    split; intros k [->|Hin]%elem_of_cons; eauto.
Qed.

Lemma cm_loop_raises (m1 m2 : gmap string (list string))
    (keyword_mapping : list (list string)) (keywords : list string) :
  well_formed_table keyword_mapping →
  ∀ st e, cm_loop m1 m2 keywords keyword_mapping st = Raise e → e = KeyError.
Proof.
  intros Hwf. induction keywords as [|keyword keywords IH]; intros st e Hrun.
  - done.
  - cbn [cm_loop] in Hrun.
    destruct (dict_get m1 (strip keyword)) as [e1|] eqn:H1;
      [|by apply dict_get_raises in H1 as ->; injection Hrun as <-].
    destruct (dict_get m2 (strip keyword)) as [e2|] eqn:H2;
      [|by apply dict_get_raises in H2 as ->; injection Hrun as <-].
    cbn [mbind result_bind] in Hrun.
    rewrite map_changed_feature_of in Hrun by done.
    by apply IH in Hrun.
Qed.

(** X10: with a table of (keyword, feature) rows, [compare_and_mapping]
    returns exactly when both match sets have an entry for the stripped form
    of every keyword; otherwise it raises [KeyError]. *)
Theorem compare_and_mapping_needs_entries (m1 m2 : gmap string (list string))
    (keywords : list string) (keyword_mapping : list (list string)) :
  well_formed_table keyword_mapping →
  (is_ok (compare_and_mapping m1 m2 keywords keyword_mapping) ↔
     has_entries m1 keywords ∧ has_entries m2 keywords)
  ∧ (∀ e, compare_and_mapping m1 m2 keywords keyword_mapping = Raise e →
          e = KeyError).
Proof.
  intros Hwf. split.
  - split.
    + unfold compare_and_mapping.
      destruct (cm_loop m1 m2 keywords keyword_mapping cm_init) as [st|] eqn:Hrun;
        [|done].
      intros _. by eapply cm_loop_entries.
    + intros [H1 H2]. by rewrite compare_and_mapping_spec.
  - unfold compare_and_mapping. intros e.
    destruct (cm_loop m1 m2 keywords keyword_mapping cm_init) as [st|e'] eqn:Hrun;
      [done|].
    intros [= <-]. by eapply cm_loop_raises.
Qed.

Lemma compare_and_mapping_needs_entries_witness :
  is_ok (compare_and_mapping demo_matches_1 demo_matches_2
           ["Voltage"; "current"] [["voltage"; " Supply Voltage "]]).
Proof.
  apply (proj1 (compare_and_mapping_needs_entries demo_matches_1 demo_matches_2
                  ["Voltage"; "current"] [["voltage"; " Supply Voltage "]]
                  ltac:(by repeat constructor))).
  split; intros keyword Hin; apply (bool_decide_unpack _);
    apply elem_of_cons in Hin as [->|Hin]; try (by vm_compute);
    apply list_elem_of_singleton in Hin as ->; by vm_compute.
Defined.

Lemma cm_loop_unchanged (m : gmap string (list string))
    (keyword_mapping : list (list string)) (keywords : list string) :
  has_entries m keywords →
  ∀ df mapped,
    cm_loop m m keywords keyword_mapping (CmState df [] mapped)
    = Ok (CmState (df ++ (keywords ≫= triple_of m m)) [] mapped).
Proof.
  induction keywords as [|keyword keywords IH]; intros Hm df mapped.
  - cbn. by rewrite app_nil_r.
  - assert (compare (entry_of m keyword) (entry_of m keyword) = true) as Hc
      by (by apply compare_true_iff).
    rewrite bind_cons, app_assoc.
    cbn [cm_loop]. rewrite (dict_get_entry m keyword) by (apply Hm; by left).
    cbn [mbind result_bind changed_features mapped_features df_list].
    rewrite Hc. cbn [map_changed mbind result_bind].
    rewrite IH by (intros k Hin; apply Hm; by right).
    unfold triple_of at 2. by rewrite Hc.
Qed.

(** X11: two documents with the same extracted lines never show a change,
    whatever the mapping table holds: the flag is "No", the lists of changed
    keywords and of mapped features are empty, and every keyword has the
    same matches on both sides with the truth value [True]. *)
Theorem same_lines_no_change (rd : reader) (old latest : string)
    (keywords : list string) (vendor_code : string)
    (keyword_mapping : list (list string)) (log : list event) (n1 n2 : Z)
    (lines : list string) (m : gmap string (list string)) :
  count_of_pages rd old = Ok n1 → count_of_pages rd latest = Ok n2 →
  n1 <= page_limit → n2 <= page_limit →
  fitz_extract_all_words rd old = Ok lines →
  fitz_extract_all_words rd latest = Ok lines →
  search_for_words keywords (text_of lines) = Ok m →
  (magic_main rd [old; latest] keywords vendor_code keyword_mapping log).2
  = Ok ([CStr old; CStr latest; CStr (replace pdf_server "" (old +:+ latest));
         CStr vendor_code;
         CStr (str_of_nat (String.length (text_of lines)));
         CStr (str_of_nat (String.length (text_of lines)));
         CStr "No"; CStr ""; CStr ""]
        ++ (keywords ≫= fun keyword =>
              [CStr (join "|" (entry_of m keyword));
               CStr (join "|" (entry_of m keyword)); CBool true])).
Proof.
  intros Hc1 Hc2 Hn1 Hn2 He1 He2 Hs.
  rewrite magic_main_result. unfold evaluation.
  rewrite Hc1, Hc2. cbn [mbind result_bind].
  rewrite (guard_not_taken _ _ Hn1 Hn2), He1, He2. cbn [mbind result_bind].
  rewrite Hs. cbn [mbind result_bind]. unfold compare_and_mapping, cm_init.
  rewrite cm_loop_unchanged by (by eapply search_for_words_has_entries).
  cbn [mbind result_bind mret result_ret changed_features mapped_features df_list].
  do 2 f_equal. cbn [app]. do 9 f_equal.
  apply list_bind_ext; [|done]. intros keyword. unfold triple_of.
  by rewrite (proj2 (compare_true_iff _ _) (reflexivity _)).
Qed.

Lemma same_lines_no_change_witness :
  (magic_main demo_reader ["a.pdf"; "a.pdf"] ["voltage"] "V1"
     [[]; ["x"]] []).2
  = Ok [CStr "a.pdf"; CStr "a.pdf"; CStr "a.pdfa.pdf"; CStr "V1"; CStr "22";
        CStr "22"; CStr "No"; CStr ""; CStr "";
        CStr "voltage: 5v"; CStr "voltage: 5v"; CBool true].
Proof.
  refine (eq_trans (same_lines_no_change demo_reader "a.pdf" "a.pdf" ["voltage"]
            "V1" [[]; ["x"]] [] 2 2 ["Voltage: 5V"; "Current 1A"]
            {[ "voltage" := ["voltage: 5v"] ]} _ _ _ _ _ _ _) _).
  - reflexivity.
  - reflexivity.
  - unfold page_limit. lia.
  - unfold page_limit. lia.
  - reflexivity.
  - reflexivity.
  - vm_compute. reflexivity.
  - vm_compute. reflexivity.
Defined.

(** X12: [magic_main] keeps the log of the calls made before it and adds
    between one and four calls to the reader, always in the order: page
    count of the old document, page count of the latest, text of the old,
    text of the latest. It asks for a text only when both page counts were
    returned and are within the limit. *)
Theorem magic_main_reader_calls (rd : reader) (old latest : string)
    (keywords : list string) (vendor_code : string)
    (keyword_mapping : list (list string)) (log : list event) :
  let calls := [PageCount old; PageCount latest;
                TextExtraction old; TextExtraction latest] in
  ∃ n, (1 ≤ n ≤ 4)%nat
    ∧ (magic_main rd [old; latest] keywords vendor_code keyword_mapping log).1
      = log ++ take n calls
    ∧ ((2 ≤ n)%nat → is_ok (count_of_pages rd old))
    ∧ ((3 ≤ n)%nat →
       ∃ n1 n2, count_of_pages rd old = Ok n1 ∧ count_of_pages rd latest = Ok n2
                ∧ n1 <= page_limit ∧ n2 <= page_limit)
    ∧ (n = 4%nat → is_ok (fitz_extract_all_words rd old)).
Proof.
  intros calls.
  unfold magic_main, try_except, magic_body, document_text, call_count_of_pages,
    call_fitz_extract_all_words, lift.
  index_pair old latest. run_io.
  destruct (count_of_pages rd old) as [n1|].
  2:{ exists 1%nat. cbn. split_and!; [lia|lia|done|lia|lia|lia]. }
  destruct (count_of_pages rd latest) as [n2|].
  2:{ exists 2%nat. cbn. rewrite <-app_assoc.
      split_and!; [lia|lia|done|done|lia|lia]. }
  destruct ((page_limit <? n2) || (page_limit <? n1)) eqn:Hguard.
  { exists 2%nat. cbn. rewrite <-app_assoc.
    split_and!; [lia|lia|done|done|lia|lia]. }
  apply orb_false_iff in Hguard as [H2%Z.ltb_ge H1%Z.ltb_ge].
  destruct (fitz_extract_all_words rd old) as [lines1|].
  2:{ exists 3%nat. cbn. rewrite <-!app_assoc.
      split_and!; [lia|lia|done|done|by intros _; exists n1, n2|lia]. }
  exists 4%nat.
  assert (∀ o : list event * result (list cell),
            o.1 = ((log ++ [PageCount old]) ++ [PageCount latest])
                  ++ [TextExtraction old] ++ [TextExtraction latest] →
            o.1 = log ++ take 4 calls) as Hlog.
  { intros o ->. by rewrite <-!app_assoc. }
  split_and!; [lia|lia| |done|by intros _; exists n1, n2|done].
  apply Hlog.
  destruct (fitz_extract_all_words rd latest) as [lines2|];
    [|by rewrite <-!app_assoc].
  destruct (search_for_words keywords (text_of lines1)) as [m1|];
    [|by rewrite <-!app_assoc].
  destruct (search_for_words keywords (text_of lines2)) as [m2|];
    [|by rewrite <-!app_assoc].
  destruct (compare_and_mapping m1 m2 keywords keyword_mapping);
    by rewrite <-!app_assoc.
Qed.

(** ** Feature names *)

Lemma feature_of_form (keyword_mapping : list (list string)) (keyword : string) :
  ∃ x, feature_of keyword_mapping keyword = strip (lower x).
Proof.
  unfold feature_of. destruct (list_find _ _) as [[i row]|]; eauto.
Qed.

Lemma strip_lower_fixed (x : string) :
  lower (strip (lower x)) = strip (lower x)
  ∧ strip (strip (lower x)) = strip (lower x).
Proof.
  split; [|apply strip_idemp]. by rewrite <-lower_strip, lower_idemp.
Qed.







(** ** More on the batch loop *)

Lemma drain_first_failure {A B} (f : A → result B) (pre post : list A) (x : A)
    (e : exn) (acc : list B) :
  Forall (fun y => is_ok (f y)) pre → f x = Raise e →
  drain (map f (pre ++ x :: post)) acc = Raise e.
Proof.
  intros Hpre Hx. revert acc. induction pre as [|y pre IH]; intros acc.
  - cbn [app map drain]. by rewrite Hx.
  - apply Forall_cons in Hpre as [Hy Hpre]. cbn [app map drain].
    destruct (f y) as [row|]; [|done]. cbn [mbind result_bind]. by apply IH.
Qed.

Lemma worker_no_links (rd : reader) (keywords : list string)
    (vendor_code : string) (keyword_mapping : list (list string)) :
  worker rd keywords vendor_code keyword_mapping [] = Raise IndexError.
Proof. reflexivity. Qed.

(** X14: the batch loop stops at the first pair on which the worker raises
    and raises the same exception, so that no row of the vendor is returned;
    [magic_main] does raise on an empty list of links, since its handler
    indexes the list again. *)
Theorem batch_loop_first_failure (rd : reader) (keywords : list string)
    (vendor_code : string) (keyword_mapping : list (list string))
    (pre post : list (list string)) (links : list string) (e : exn) :
  Forall (fun l => is_ok (worker rd keywords vendor_code keyword_mapping l)) pre →
  worker rd keywords vendor_code keyword_mapping links = Raise e →
  run_batches rd keywords vendor_code keyword_mapping (pre ++ links :: post)
  = Raise e
  ∧ worker rd keywords vendor_code keyword_mapping [] = Raise IndexError.
Proof.
  intros Hpre Hlinks. split; [|apply worker_no_links].
  unfold run_batches, py_range.
  rewrite batch_loop_range by (unfold one_time_count; lia).
  rewrite drop_0. by apply drain_first_failure.
Qed.

Lemma batch_loop_first_failure_witness :
  run_batches demo_reader ["voltage"] "V1" []
    ([["a.pdf"; "b.pdf"]] ++ [] :: [["b.pdf"; "a.pdf"]])
  = Raise IndexError.
Proof.
  refine (proj1 (batch_loop_first_failure demo_reader ["voltage"] "V1" []
                   [["a.pdf"; "b.pdf"]] [["b.pdf"; "a.pdf"]] [] IndexError _ _)).
  - constructor; [|constructor]. by vm_compute.
  - reflexivity.
Defined.

Lemma mjoin_cons {A} (x : list A) (ls : list (list A)) :
  mjoin (x :: ls) = x ++ mjoin ls.
Proof. reflexivity. Qed.

Lemma range_from_chunks {A} (count : nat) (l : list A) :
  (0 < count)%nat →
  ∀ fuel start, (length l - start ≤ fuel)%nat →
    mjoin ((fun i => slice l i (i + count)) <$> range_from fuel start (length l) count)
    = drop start l
    ∧ Forall (fun i => (i < length l)%nat ∧ ∃ j, i = (start + j * count)%nat)
        (range_from fuel start (length l) count).
Proof.
  intros Hcount. induction fuel as [|fuel IH]; intros start Hfuel.
  - cbn. split; [by rewrite drop_ge by lia | done].
  - cbn [range_from]. destruct (start <? length l)%nat eqn:Hlt.
    + apply Nat.ltb_lt in Hlt.
      destruct (IH (start + count)%nat) as [Hjoin Hall]; [lia|]. split.
      * rewrite fmap_cons, mjoin_cons, Hjoin. unfold slice.
        replace (start + count - start)%nat with count by lia.
        by rewrite <-drop_drop, take_drop.
      * apply Forall_cons. split; [split; [done | exists 0%nat; lia]|].
        eapply Forall_impl; [exact Hall|]. intros i [Hi [j ->]].
        split; [done|]. exists (S j). lia.
    + apply Nat.ltb_ge in Hlt. cbn. split; [by rewrite drop_ge by lia | done].
Qed.

(** X15: the batches partition the list of pairs: the slices taken at the
    starts [0, count, 2 count, ...] below the length, one after the other,
    are the whole list; every start is a multiple of [count], every batch
    has at least one pair and at most [count], and a batch that does not
    reach the end of the list has exactly [count]. *)
Theorem batches_partition {A} (count : nat) (l : list A) :
  (0 < count)%nat →
  let starts := py_range 0 (length l) count in
  mjoin ((fun i => slice l i (i + count)) <$> starts) = l
  ∧ Forall (fun i =>
      (∃ j, i = (j * count)%nat)
      ∧ length (slice l i (i + count)) = Nat.min count (length l - i)
      ∧ (0 < length (slice l i (i + count)) ≤ count)%nat) starts.
Proof.
  intros Hcount starts. unfold starts, py_range.
  destruct (range_from_chunks count l Hcount (length l) 0%nat) as [Hjoin Hall];
    [lia|].
  split; [by rewrite Hjoin, drop_0|].
  eapply Forall_impl; [exact Hall|]. intros i [Hi [j ->]].
  assert (length (slice l (j * count) (j * count + count))
          = Nat.min count (length l - j * count)) as Hlen.
  { unfold slice. rewrite length_take, length_drop. lia. }
  cbn [plus] in *. split_and!; [by exists j | done | lia | lia].
Qed.

Lemma batches_partition_witness :
  mjoin ((fun i => slice [1; 2; 3; 4; 5]%nat i (i + 2)) <$> py_range 0 5 2)
  = [1; 2; 3; 4; 5]%nat.
Proof.
  refine (proj1 (batches_partition 2 [1; 2; 3; 4; 5]%nat _)). lia.
Defined.

(** ** [extract_all_text] *)

(** X16: the text that [extract_all_text] returns is in normal form: it is
    unchanged by lowercasing and by stripping, and it neither starts nor
    ends with whitespace, since lowercasing and stripping commute. *)
Theorem extract_all_text_normal (pages : list string) :
  let text := extract_all_text_on pages in
  lower text = text ∧ strip text = text ∧ starts_with_space text = false
  ∧ (∀ s, strip (lower s) = lower (strip s)).
Proof.
  intros text. subst text. unfold extract_all_text_on.
  destruct (strip_lower_fixed (join (String newline "") pages)) as [Hl Hs].
  split_and!; [done | done | | apply lower_strip].
  unfold strip. apply starts_with_space_rstrip, starts_with_space_lstrip.
Qed.

(** ** [Magic_Special.py] *)

Lemma special_cm_loop (m1 m2 : gmap string (list string))
    (keyword_mapping : list (list string)) (keywords : list string) :
  ∀ df changed_list mapped,
    Special.cm_loop m1 m2 keywords keyword_mapping changed_list mapped =
    match cm_loop m1 m2 keywords keyword_mapping (CmState df changed_list mapped) with
    | Ok st => Ok (changed_features st, mapped_features st)
    | Raise e => Raise e
    end.
Proof.
  induction keywords as [|keyword keywords IH]; intros df changed_list mapped;
    [done|].
  cbn [Special.cm_loop cm_loop changed_features mapped_features df_list].
  destruct (dict_get m1 (strip keyword)) as [e1|]; [|done].
  destruct (dict_get m2 (strip keyword)) as [e2|]; [|done].
  cbn [mbind result_bind].
  destruct (map_changed _ keyword_mapping mapped) as [mapped'|]; [|done].
  cbn [mbind result_bind]. apply IH.
Qed.

Lemma change_flag_cases (l : list string) :
  change_flag l = "Yes" ∨ change_flag l = "No".
Proof. unfold change_flag. case_decide; tauto. Qed.

(** X17: the row of [compare_and_mapping] in [Magic_Special.py]. When the
    part status is "Equal" it has eight cells, of which the comment is
    "Equal Parts" when some keyword changed and "Equal Manual" when none
    did, followed by the change flag and the mapped features; the changed
    keywords themselves are not in the row. For any other part status it is
    the two-cell row "Reject", "Not Compatible". *)
Theorem special_compare_and_mapping_row (m1 m2 : gmap string (list string))
    (part_1 part_2 part_status : string) (keywords : list string)
    (keyword_mapping : list (list string)) :
  well_formed_table keyword_mapping →
  has_entries m1 keywords → has_entries m2 keywords →
  let changed_list := changed_of m1 m2 keywords in
  let mapped := dedup_sort (feature_of keyword_mapping <$> changed_list) in
  Special.compare_and_mapping m1 m2 part_1 part_2 part_status keywords
    keyword_mapping
  = Ok (if decide (part_status = "Equal") then
          ["Done"; part_1; part_2; "Done"; "";
           if decide (changed_list = []) then "Equal Manual" else "Equal Parts";
           change_flag changed_list; join ", " mapped]
        else ["Reject"; "Not Compatible"]).
Proof.
  intros Hwf H1 H2 changed_list mapped. unfold Special.compare_and_mapping.
  rewrite (special_cm_loop _ _ _ _ []).
  destruct (cm_loop_spec m1 m2 keyword_mapping keywords Hwf H1 H2 cm_init)
    as (st & Hrun & Hch & _ & Hinv).
  { intros f. cbn. split; [by intros ?%elem_of_nil|].
    by intros (? & ?%elem_of_nil & _). }
  unfold cm_init in Hrun. rewrite Hrun. cbn in Hch. fold changed_list in Hch.
  cbn [mbind result_bind mret result_ret]. rewrite Hch.
  rewrite (dedup_sort_ext (mapped_features st)
             (feature_of keyword_mapping <$> changed_list)).
  2:{ intros f. rewrite (Hinv f), Hch, list_elem_of_fmap.
      split; [intros (cf & Hcf & ->) | intros (cf & -> & Hcf)]; eauto. }
  fold mapped. unfold change_flag.
  destruct (decide (changed_list = [])); destruct (decide (part_status = "Equal"));
    repeat case_decide; try done; try tauto; try (by destruct_and?).
Qed.

Lemma special_compare_and_mapping_row_witness :
  Special.compare_and_mapping demo_matches_1 demo_matches_2 "p 1" "p1" "Equal"
    ["Voltage"; "current"] [["voltage"; " Supply Voltage "]]
  = Ok ["Done"; "p 1"; "p1"; "Done"; ""; "Equal Parts"; "Yes"; "supply voltage"].
Proof.
  refine (eq_trans (special_compare_and_mapping_row demo_matches_1 demo_matches_2
            "p 1" "p1" "Equal" ["Voltage"; "current"]
            [["voltage"; " Supply Voltage "]] _ _ _) _).
  - by repeat constructor.
  - intros keyword Hin; apply (bool_decide_unpack _);
      apply elem_of_cons in Hin as [->|Hin]; try (by vm_compute);
      apply list_elem_of_singleton in Hin as ->; by vm_compute.
  - intros keyword Hin; apply (bool_decide_unpack _);
      apply elem_of_cons in Hin as [->|Hin]; try (by vm_compute);
      apply list_elem_of_singleton in Hin as ->; by vm_compute.
  - vm_compute. reflexivity.
Defined.

Lemma lstrip_without_spaces (s : string) :
  lstrip (without_spaces s) = without_spaces (lstrip s).
Proof.
  induction s as [|c s IH]; [done|]. cbn [without_spaces lstrip].
  destruct (Ascii.eqb_spec c space) as [->|Hne].
  - change (isspace space) with true. cbn match. exact IH.
  - cbn [lstrip]. destruct (isspace c); [exact IH|].
    cbn [without_spaces]. by rewrite (proj2 (Ascii.eqb_neq _ _) Hne).
Qed.

Lemma without_spaces_rstrip_not_empty (s : string) :
  rstrip s ≠ "" → without_spaces (rstrip s) ≠ "".
Proof.
  induction s as [|c s IH]; [done|]. cbn [rstrip].
  destruct (rstrip s) as [|d r] eqn:Hr.
  - destruct (isspace c) eqn:Hc; [done|]. intros _. cbn [without_spaces].
    destruct (Ascii.eqb_spec c space) as [->|]; [by vm_compute in Hc | done].
  - intros _. cbn [without_spaces]. destruct (Ascii.eqb c space); [|done].
    by apply IH.
Qed.

Lemma rstrip_without_spaces (s : string) :
  rstrip (without_spaces s) = without_spaces (rstrip s).
Proof.
  induction s as [|c s IH]; [done|]. cbn [without_spaces rstrip].
  destruct (Ascii.eqb_spec c space) as [->|Hne].
  - rewrite IH. change (isspace space) with true.
    by destruct (rstrip s).
  - cbn [rstrip]. rewrite IH.
    pose proof (without_spaces_rstrip_not_empty s) as Hnot.
    destruct (rstrip s) as [|d r] eqn:Hr.
    + cbn [without_spaces]. destruct (isspace c); [done|].
      cbn [without_spaces]. by rewrite (proj2 (Ascii.eqb_neq _ _) Hne).
    + destruct (without_spaces (String d r)) as [|d' r'] eqn:Hw;
        [by destruct Hnot|].
      cbn [without_spaces]. cbn [without_spaces] in Hw.
      by rewrite (proj2 (Ascii.eqb_neq _ _) Hne), Hw.
Qed.

Lemma strip_without_spaces (s : string) :
  strip (without_spaces s) = without_spaces (strip s).
Proof. unfold strip. by rewrite lstrip_without_spaces, rstrip_without_spaces. Qed.

Lemma special_bind_return {A B} (m : Special.outcome A)
    (f : A → Special.outcome B) (b : B) :
  m ≫= f = Special.Return b → ∃ a, m = Special.Return a ∧ f a = Special.Return b.
Proof. destruct m as [a|e]; [eauto | done]. Qed.

(** X18: [compare_parts] reports the status "Equal" only with two parts that
    are stripped, equal once their space characters are taken out, and not
    empty; in every other case in which it returns, it returns the
    placeholders "_", "_" and the status "Not Equal". It raises [IndexError]
    on an empty list of part keywords, and [UnboundLocalError] when the part
    keyword is "xxx" and the vendor code is not "SCE", since the part lines
    are then never assigned. *)
Theorem special_compare_parts (rd : Special.reader) (links : list string)
    (text1 text2 : string) (part_keyword : list string) (vendor_code : string) :
  (∀ p1 p2 status,
     Special.compare_parts rd links text1 text2 part_keyword vendor_code
     = Special.Return (p1, p2, status) →
     (status = "Equal" ∧ p1 ≠ "" ∧ strip p1 = p1 ∧ strip p2 = p2
      ∧ without_spaces p1 = without_spaces p2)
     ∨ (p1 = "_" ∧ p2 = "_" ∧ status = "Not Equal"))
  ∧ (part_keyword = [] →
     Special.compare_parts rd links text1 text2 part_keyword vendor_code
     = Special.Throw (Special.Builtin IndexError))
  ∧ (∀ first rest,
       part_keyword = first :: rest → lower (strip first) = "xxx" →
       vendor_code ≠ "SCE" →
       Special.compare_parts rd links text1 text2 part_keyword vendor_code
       = Special.Throw Special.UnboundLocalError).
Proof.
  split_and!.
  - intros p1 p2 status. unfold Special.compare_parts.
    intros (first & _ & Hrun)%special_bind_return.
    apply special_bind_return in Hrun as ([line1 line2] & _ & Hrun).
    apply special_bind_return in Hrun as (part_1 & _ & Hrun).
    apply special_bind_return in Hrun as (part_2 & _ & Hrun).
    case_decide as Heq; injection Hrun as <- <- <-; [left | by right].
    destruct Heq as [Heq Hne]. rewrite !replace_space, !strip_without_spaces in Heq.
    split_and!; [done | done | apply strip_idemp | apply strip_idemp | done].
  - by intros ->.
  - intros first rest -> Hxxx Hvendor. unfold Special.compare_parts.
    change (py_index (first :: rest) 0) with (Ok first).
    cbn [Special.of_result mbind Special.outcome_bind]. rewrite Hxxx.
    rewrite decide_False by (by intros H; apply H).
    by rewrite decide_False by done.
Qed.

Lemma special_compare_parts_witness :
  Special.compare_parts
    (Special.Reader (fun _ => Special.Return 1) (fun _ => Special.Return [])
       (fun _ => Special.PyNone) (fun _ _ s => Special.Return s))
    ["a"; "b"] "" "" ["XXX "] "ABC"
  = Special.Throw Special.UnboundLocalError.
Proof.
  refine (proj2 (proj2 (special_compare_parts _ _ _ _ _ _)) "XXX " [] _ _ _).
  - reflexivity.
  - reflexivity.
  - discriminate.
Defined.

Lemma special_compare_and_mapping_equal (m1 m2 : gmap string (list string))
    (part_1 part_2 : string) (keywords : list string)
    (keyword_mapping : list (list string)) (row : list string) :
  Special.compare_and_mapping m1 m2 part_1 part_2 "Equal" keywords keyword_mapping
  = Ok row →
  ∃ comment flag mapped,
    row = ["Done"; part_1; part_2; "Done"; ""; comment; flag; mapped].
Proof.
  unfold Special.compare_and_mapping.
  intros ([changed_list mapped] & _ & Hrow)%bind_ok.
  destruct (change_flag_cases changed_list) as [Hflag|Hflag]; rewrite Hflag in Hrow.
  - rewrite decide_True in Hrow by done. injection Hrow as <-. eauto.
  - rewrite decide_False in Hrow by (by intros [? _]).
    rewrite decide_True in Hrow by done. injection Hrow as <-. eauto.
Qed.

(** Unfolds the binds of the monad of [Magic_Special.py]. *)
Ltac run_special :=
  cbn [Special.of_result mbind Special.outcome_bind result_bind mret
       Special.outcome_ret result_ret].

Section special_pair_evaluator.

Context (rd : Special.reader) (keywords : list string) (vendor_code : string)
  (part_keyword : list string) (keyword_mapping : list (list string))
  (old latest : string).

(** X19: every row that [magic_main] of [Magic_Special.py] returns for a
    pair of strings is one of: the five-cell row ending in "Error"; the
    six-cell rows ending in "Reject", "Page limit exceeded" or in "Reject",
    "Not Compatible"; or a row of fourteen cells, as many as the header,
    whose status cell is "Done", followed by the lengths of the two texts,
    the two parts, and the comment, the flag and the mapped features of
    [compare_and_mapping]. *)
Theorem special_magic_main_rows (row : list string) :
  Special.magic_main rd [old; latest] keywords vendor_code part_keyword
    keyword_mapping = Special.Return row →
  row = special_cells old latest vendor_code ++ ["Error"]
  ∨ row = special_cells old latest vendor_code
          ++ ["Reject"; "Page limit exceeded"]
  ∨ row = special_cells old latest vendor_code ++ ["Reject"; "Not Compatible"]
  ∨ (length row = length Special.header
     ∧ ∃ pages1 pages2 part_1 part_2 comment flag mapped,
         Special.page_texts rd old = Special.Return pages1
         ∧ Special.page_texts rd latest = Special.Return pages2
         ∧ row = special_cells old latest vendor_code
                 ++ ["Done";
                     str_of_nat (String.length (extract_all_text_on pages1));
                     str_of_nat (String.length (extract_all_text_on pages2));
                     part_1; part_2; "Done"; ""; comment; flag; mapped]).
Proof.
  unfold Special.magic_main, Special.magic_body, Special.leading_cells,
    Special.extract_all_text.
  change (py_index [old; latest] 0) with (Ok old).
  change (py_index [old; latest] (-1)) with (Ok latest).
  change (join "" [old; latest]) with (old +:+ latest).
  run_special.
  fold (special_cells old latest vendor_code).
  destruct (Special.count_of_pages rd old) as [n1|]; [|by intros [= <-]; eauto].
  destruct (Special.count_of_pages rd latest) as [n2|];
    [|by intros [= <-]; eauto].
  run_special.
  destruct ((Special.page_limit <? n2) || (Special.page_limit <? n1));
    [by intros [= <-]; eauto|].
  destruct (Special.page_texts rd old) as [pages1|] eqn:Hp1;
    [|by intros [= <-]; eauto].
  destruct (Special.page_texts rd latest) as [pages2|] eqn:Hp2;
    [|by intros [= <-]; eauto].
  run_special.
  destruct (Special.compare_parts _ _ _ _ _ _) as [[[p1 p2] status]|];
    [|by intros [= <-]; eauto].
  run_special.
  destruct (decide (status ≠ "Equal")) as [|Heq]; [by intros [= <-]; eauto 6|].
  apply dec_stable in Heq as ->.
  destruct (search_for_words keywords (extract_all_text_on pages1)) as [m1|];
    [|by intros [= <-]; eauto].
  destruct (search_for_words keywords (extract_all_text_on pages2)) as [m2|];
    [|by intros [= <-]; eauto].
  run_special.
  destruct (Special.compare_and_mapping m1 m2 p1 p2 "Equal" keywords
              keyword_mapping) as [cm_row|] eqn:Hrow; [|by intros [= <-]; eauto].
  apply special_compare_and_mapping_equal in Hrow
    as (comment & flag & mapped & ->).
  run_special. intros [= <-]. do 3 right. split; [done|].
  by exists pages1, pages2, p1, p2, comment, flag, mapped.
Qed.

(** X20: the two guards of [magic_main] in [Magic_Special.py]. A page count
    above 50 for either document gives the row ending in "Reject", "Page
    limit exceeded". When the page counts are within the limit, the texts
    are read and [compare_parts] returns a status other than "Equal", the
    row ends in "Reject", "Not Compatible" whatever the keywords are: they
    are not searched, so that a keyword that would raise does not turn the
    row into an error row. *)
Theorem special_magic_main_guards (n1 n2 : Z) :
  Special.count_of_pages rd old = Special.Return n1 →
  Special.count_of_pages rd latest = Special.Return n2 →
  (50 < n1 ∨ 50 < n2 →
   Special.magic_main rd [old; latest] keywords vendor_code part_keyword
     keyword_mapping
   = Special.Return (special_cells old latest vendor_code
                     ++ ["Reject"; "Page limit exceeded"]))
  ∧ (∀ pages1 pages2 p1 p2 status,
       n1 <= 50 → n2 <= 50 →
       Special.page_texts rd old = Special.Return pages1 →
       Special.page_texts rd latest = Special.Return pages2 →
       Special.compare_parts rd [old; latest] (extract_all_text_on pages1)
         (extract_all_text_on pages2) part_keyword vendor_code
       = Special.Return (p1, p2, status) →
       status ≠ "Equal" →
       Special.magic_main rd [old; latest] keywords vendor_code part_keyword
         keyword_mapping
       = Special.Return (special_cells old latest vendor_code
                         ++ ["Reject"; "Not Compatible"])).
Proof.
  intros Hc1 Hc2.
  unfold Special.magic_main, Special.magic_body, Special.leading_cells,
    Special.extract_all_text.
  change (py_index [old; latest] 0) with (Ok old).
  change (py_index [old; latest] (-1)) with (Ok latest).
  change (join "" [old; latest]) with (old +:+ latest).
  run_special.
  fold (special_cells old latest vendor_code). rewrite Hc1, Hc2. run_special. split.
  - intros Hlimit.
    assert ((Special.page_limit <? n2) || (Special.page_limit <? n1) = true) as ->;
      [|done].
    apply orb_true_iff. rewrite !Z.ltb_lt. unfold Special.page_limit. tauto.
  - intros pages1 pages2 p1 p2 status Hn1 Hn2 Hp1 Hp2 Hparts Hstatus.
    assert ((Special.page_limit <? n2) || (Special.page_limit <? n1) = false) as ->.
    { apply orb_false_iff. rewrite !Z.ltb_ge. unfold Special.page_limit. lia. }
    rewrite Hp1, Hp2. run_special. rewrite Hparts.
    run_special. by rewrite decide_True.
Qed.

End special_pair_evaluator.

Lemma special_magic_main_rows_witness :
  ["a.pdf"; "b.pdf"; "a.pdfb.pdf"; "V"; "Error"]
  = special_cells "a.pdf" "b.pdf" "V" ++ ["Error"]
  ∨ ["a.pdf"; "b.pdf"; "a.pdfb.pdf"; "V"; "Error"]
    = special_cells "a.pdf" "b.pdf" "V" ++ ["Reject"; "Page limit exceeded"]
  ∨ ["a.pdf"; "b.pdf"; "a.pdfb.pdf"; "V"; "Error"]
    = special_cells "a.pdf" "b.pdf" "V" ++ ["Reject"; "Not Compatible"]
  ∨ length ["a.pdf"; "b.pdf"; "a.pdfb.pdf"; "V"; "Error"] = length Special.header.
Proof.
  destruct (special_magic_main_rows
              (Special.Reader (fun _ => Special.Return 2)
                 (fun _ => Special.Throw (Special.Builtin ReaderError))
                 (fun _ => Special.PyNone) (fun _ _ s => Special.Return s))
              ["x"] "V" ["part"] [] "a.pdf" "b.pdf"
              ["a.pdf"; "b.pdf"; "a.pdfb.pdf"; "V"; "Error"] eq_refl)
    as [H|[H|[H|[H _]]]]; tauto.
Defined.

Lemma special_magic_main_guards_witness :
  Special.magic_main
    (Special.Reader (fun _ => Special.Return 60) (fun _ => Special.Return [])
       (fun _ => Special.PyNone) (fun _ _ s => Special.Return s))
    ["a.pdf"; "b.pdf"] ["_9"] "V" ["part"] []
  = Special.Return ["a.pdf"; "b.pdf"; "a.pdfb.pdf"; "V"; "Reject";
                    "Page limit exceeded"].
Proof.
  refine (proj1 (special_magic_main_guards _ ["_9"] "V" ["part"] [] "a.pdf" "b.pdf"
                   60 60 _ _) _).
  - reflexivity.
  - reflexivity.
  - left. lia.
Defined.

(** ** Rows of the sheet with an empty cell *)

Lemma texts_of_nan (links : list sheet_cell) :
  Nan ∈ links → texts_of links = Raise TypeError.
Proof.
  induction links as [|c links IH]; [by intros ?%elem_of_nil|].
  destruct c as [s|]; [|done]. intros [[=]|Hin]%elem_of_cons.
  cbn [texts_of]. by rewrite (IH Hin).
Qed.

Lemma status_row_cells_nan (links : list sheet_cell) (status : string) :
  Nan ∈ links → status_row_cells links status = Raise TypeError.
Proof.
  intros Hnan. unfold status_row_cells, join_links.
  destruct (head links) as [old|] eqn:Hold;
    [|by destruct links; [apply elem_of_nil in Hnan|]].
  destruct (last links) as [latest|] eqn:Hlatest;
    [|by apply last_None in Hlatest as ->; apply elem_of_nil in Hnan].
  rewrite (py_index_head _ _ Hold), (py_index_last _ _ Hlatest).
  cbn [mbind result_bind]. by rewrite (texts_of_nan _ Hnan).
Qed.

Lemma magic_body_cells_nan (rd : cell_reader) (links : list sheet_cell)
    (keywords : list string) (vendor_code : string)
    (keyword_mapping : list (list string)) (row : list cell) :
  Nan ∈ links →
  magic_body_cells rd links keywords vendor_code keyword_mapping ≠ Ok row.
Proof.
  intros Hnan Hrun. unfold magic_body_cells in Hrun.
  apply bind_ok in Hrun as (link_1 & _ & Hrun).
  apply bind_ok in Hrun as (n1 & _ & Hrun).
  apply bind_ok in Hrun as (link_2 & _ & Hrun).
  apply bind_ok in Hrun as (n2 & _ & Hrun).
  destruct ((page_limit <? n2) || (page_limit <? n1)).
  { by rewrite status_row_cells_nan in Hrun. }
  apply bind_ok in Hrun as (l1 & _ & Hrun).
  apply bind_ok in Hrun as (lines1 & _ & Hrun).
  apply bind_ok in Hrun as (l2 & _ & Hrun).
  apply bind_ok in Hrun as (lines2 & _ & Hrun).
  apply bind_ok in Hrun as (m1 & _ & Hrun).
  apply bind_ok in Hrun as (m2 & _ & Hrun).
  apply bind_ok in Hrun as (final_row & _ & Hrun).
  apply bind_ok in Hrun as (joined & Hjoin & _).
  unfold join_links in Hjoin. by rewrite (texts_of_nan _ Hnan) in Hjoin.
Qed.

(** On a pair of strings the rows of the sheet behave as the pairs above. *)
Lemma magic_main_cells_text (rd : reader) (nan_pages : result Z)
    (nan_lines : result (list string)) (old latest : string)
    (keywords : list string) (vendor_code : string)
    (keyword_mapping : list (list string)) (log : list event) :
  magic_main_cells (on_cells rd nan_pages nan_lines) [Text old; Text latest]
    keywords vendor_code keyword_mapping
  = (magic_main rd [old; latest] keywords vendor_code keyword_mapping log).2.
Proof.
  rewrite magic_main_result.
  unfold magic_main_cells, magic_body_cells, evaluation, status_row_cells,
    join_links, on_cells.
  change (py_index [Text old; Text latest] 0) with (Ok (Text old)).
  change (py_index [Text old; Text latest] (-1)) with (Ok (Text latest)).
  cbn [texts_of mbind result_bind mret result_ret count_of_pages_at
       fitz_extract_all_words_at cell_of].
  change (join "" [old; latest]) with (old +:+ latest).
  destruct (count_of_pages rd old) as [n1|]; [|done].
  destruct (count_of_pages rd latest) as [n2|]; [|done].
  cbn [mbind result_bind].
  destruct ((page_limit <? n2) || (page_limit <? n1)); [done|].
  destruct (fitz_extract_all_words rd old) as [lines1|]; [|done].
  destruct (fitz_extract_all_words rd latest) as [lines2|]; [|done].
  cbn [mbind result_bind].
  destruct (search_for_words keywords (text_of lines1)) as [m1|]; [|done].
  destruct (search_for_words keywords (text_of lines2)) as [m2|]; [|done].
  cbn [mbind result_bind].
  by destruct (compare_and_mapping m1 m2 keywords keyword_mapping).
Qed.

Lemma magic_main_cells_text_returns (rd : cell_reader) (old latest : string)
    (keywords : list string) (vendor_code : string)
    (keyword_mapping : list (list string)) :
  is_ok (magic_main_cells rd [Text old; Text latest] keywords vendor_code
           keyword_mapping).
Proof.
  unfold magic_main_cells. by destruct (magic_body_cells _ _ _ _ _).
Qed.

(** Every path of [magic_main] to a row joins the links, which raises on
    NaN, and the handler of the [try] joins them again outside of any
    [try]. *)
Lemma magic_main_cells_nan (rd : cell_reader) (links : list sheet_cell)
    (keywords : list string) (vendor_code : string)
    (keyword_mapping : list (list string)) :
  Nan ∈ links →
  magic_main_cells rd links keywords vendor_code keyword_mapping
  = Raise TypeError.
Proof.
  intros Hnan. unfold magic_main_cells.
  destruct (magic_body_cells rd links keywords vendor_code keyword_mapping)
    as [row|e] eqn:Hbody.
  - by apply magic_body_cells_nan in Hbody.
  - by apply status_row_cells_nan.
Qed.

(** C4 fails on the code: a row of the sheet with an empty cell, which
    [pandas] reads as NaN, makes [magic_main] raise [TypeError] to its
    caller, whatever the reader does: no row is returned, and none with the
    status "Error in reading". *)
Theorem magic_main_escapes_on_empty_cell (rd : cell_reader)
    (links : list sheet_cell) (keywords : list string) (vendor_code : string)
    (keyword_mapping : list (list string)) :
  Nan ∈ links →
  magic_main_cells rd links keywords vendor_code keyword_mapping
  = Raise TypeError
  ∧ ¬ is_ok (magic_main_cells rd links keywords vendor_code keyword_mapping).
Proof.
  intros Hnan. rewrite (magic_main_cells_nan _ _ _ _ _ Hnan).
  split; [done|]. by intros [].
Qed.

Lemma magic_main_escapes_on_empty_cell_witness :
  magic_main_cells (on_cells demo_reader (Raise ReaderError) (Raise ReaderError))
    [Nan; Text "b.pdf"] ["voltage"] "V1" []
  = Raise TypeError.
Proof.
  refine (proj1 (magic_main_escapes_on_empty_cell _ _ _ _ _ _)). by left.
Defined.

(** C7 fails on the code: when a row of the sheet has an empty cell, the
    batch loop raises [TypeError] at that row and returns no row at all,
    although the rows before it were evaluated. *)
Theorem batch_loop_loses_rows (rd : cell_reader) (keywords : list string)
    (vendor_code : string) (keyword_mapping : list (list string))
    (pairs : list (string * string)) (links : list sheet_cell)
    (post : list (list sheet_cell)) :
  Nan ∈ links →
  run_batches_cells rd keywords vendor_code keyword_mapping
    ((text_links <$> pairs) ++ links :: post)
  = Raise TypeError.
Proof.
  intros Hnan. unfold run_batches_cells, py_range.
  rewrite batch_loop_range by (unfold one_time_count; lia).
  rewrite drop_0. apply drain_first_failure.
  - apply Forall_fmap, Forall_forall. intros pair _.
    apply magic_main_cells_text_returns.
  - by apply magic_main_cells_nan.
Qed.

Lemma batch_loop_loses_rows_witness :
  run_batches_cells (on_cells demo_reader (Raise ReaderError) (Raise ReaderError))
    ["voltage"] "V1" []
    ((text_links <$> [("a.pdf", "b.pdf")]) ++ [Text "a.pdf"; Nan] :: [])
  = Raise TypeError.
Proof.
  apply batch_loop_loses_rows. right. by left.
Defined.
